(** * Udemy free-courses bot: a shallow embedding of [botcode.py]

    The development follows the layout of the source file: the text
    helpers the code borrows from Python's [str], [re] and [html] and from
    SQLite, then [CourseDatabase], [UdemyScraper.get_udemy_course_info],
    [TelegramChannelPoster.format_course_message] and the orchestration in
    [UdemyCoursesBot].

    Text is modelled by [string]: a sequence of 8-bit characters.  The
    character classes and the case mapping below are those of ASCII, where
    they agree with Python's; beyond ASCII Python's [\w], [\s], [strip]
    and [lower] follow Unicode, which this model does not: the statements
    that read the normal form of a title are made for titles within ASCII
    ([Text.is_ascii]). *)

From Stdlib Require Import String Ascii List Bool Arith ZArith Lia Sorted.
From Equations Require Import Equations.
Import ListNotations.

Open Scope string_scope.
Open Scope list_scope.

(** ** Text helpers *)

Module Text.

Definition code (c : ascii) : nat := nat_of_ascii c.

Definition between (lo hi : nat) (c : ascii) : bool :=
  Nat.leb lo (code c) && Nat.leb (code c) hi.

Definition is_upper (c : ascii) : bool := between 65 90 c.
Definition is_lower (c : ascii) : bool := between 97 122 c.
Definition is_digit (c : ascii) : bool := between 48 57 c.

(** [\n], the one character [.] does not match. *)
Definition newline : ascii := "010"%char.

(** [str.isspace] on ASCII, which is also [\s]: tab, line feed, vertical
    tab, form feed, carriage return, the four separators 28..31, space. *)
Definition is_space (c : ascii) : bool :=
  between 9 13 c || between 28 31 c || Nat.eqb (code c) 32.

(** [\w] on ASCII: letters, digits and the underscore. *)
Definition is_word (c : ascii) : bool :=
  is_upper c || is_lower c || is_digit c || Nat.eqb (code c) 95.

Definition lower_char (c : ascii) : ascii :=
  if is_upper c then ascii_of_nat (code c + 32) else c.

(** [s.lower()] *)
Fixpoint lower (s : string) : string :=
  match s with
  | EmptyString => EmptyString
  | String c s' => String (lower_char c) (lower s')
  end.

Fixpoint lstrip (s : string) : string :=
  match s with
  | EmptyString => EmptyString
  | String c s' => if is_space c then lstrip s' else s
  end.

Fixpoint rstrip (s : string) : string :=
  match s with
  | EmptyString => EmptyString
  | String c s' =>
      match rstrip s' with
      | EmptyString => if is_space c then EmptyString else String c EmptyString
      | r => String c r
      end
  end.

(** [s.strip()] *)
Definition strip (s : string) : string := rstrip (lstrip s).

Fixpoint filter (keep : ascii -> bool) (s : string) : string :=
  match s with
  | EmptyString => EmptyString
  | String c s' => if keep c then String c (filter keep s') else filter keep s'
  end.

(** [s.startswith(p)] *)
Definition startswith (s p : string) : bool := String.prefix p s.

(** [needle in hay] *)
Fixpoint contains (needle hay : string) : bool :=
  String.prefix needle hay ||
  match hay with
  | EmptyString => false
  | String _ hay' => contains needle hay'
  end.

(** Text within ASCII: every character is below code 128. *)
Fixpoint is_ascii (s : string) : bool :=
  match s with
  | EmptyString => true
  | String c s' => Nat.ltb (code c) 128 && is_ascii s'
  end.

(** Truth value of a [str]: the empty string is false. *)
Definition truthy (s : string) : bool :=
  match s with EmptyString => false | String _ _ => true end.

Fixpoint drop (n : nat) (s : string) : string :=
  match n, s with
  | O, _ => s
  | S _, EmptyString => EmptyString
  | S n', String _ s' => drop n' s'
  end.

(** The longest prefix of [s] made of characters satisfying [p]: what a
    greedy character class [[...]*] consumes. *)
Fixpoint span (p : ascii -> bool) (s : string) : string :=
  match s with
  | EmptyString => EmptyString
  | String c s' => if p c then String c (span p s') else EmptyString
  end.

(** *** [re.sub(r'[?#].*$', '', s)]

    [.] matches anything but a line feed and [$] (no MULTILINE) matches
    at the very end or just before a final line feed.  [rest_after_dot_star t]
    is what is left of [t] when [.*$] matches at its start. *)
Fixpoint rest_after_dot_star (t : string) : option string :=
  match t with
  | EmptyString => Some EmptyString
  | String c t' =>
      if Ascii.eqb c newline then
        match t' with
        | EmptyString => Some t
        | String _ _ => None
        end
      else rest_after_dot_star t'
  end.

Definition is_query_mark (c : ascii) : bool :=
  Ascii.eqb c "?"%char || Ascii.eqb c "#"%char.

Fixpoint strip_query (s : string) : string :=
  match s with
  | EmptyString => EmptyString
  | String c s' =>
      if is_query_mark c then
        match rest_after_dot_star s' with
        | Some rest => rest
        | None => String c (strip_query s')
        end
      else String c (strip_query s')
  end.

(** Texts without a line feed, and texts without the marks that open a
    query string or a fragment. *)
Definition no_line_feed (s : string) : Prop :=
  filter (fun c => Ascii.eqb c newline) s = EmptyString.

Definition no_query_mark (s : string) : Prop :=
  filter is_query_mark s = EmptyString.

(** What may be appended to a link: nothing, or a query string or a
    fragment, that is [?] or [#] and what follows on the same line. *)
Definition appended (q : string) : Prop :=
  match q with
  | EmptyString => True
  | String c q' => is_query_mark c = true /\ no_line_feed q'
  end.

(** *** [re.sub(r'[^\w\s]', '', title.lower().strip())]

    On a title within ASCII.  Beyond ASCII the code keeps the letters and
    the white space of Unicode, which an 8-bit character cannot tell. *)
Definition normalize_title (title : string) : string :=
  filter (fun c => is_word c || is_space c) (strip (lower title)).

(** The normal form of a title in the words of the specification:
    lower-cased, every character that is neither a letter nor a digit
    removed. *)
Definition spec_normalize_title (title : string) : string :=
  filter (fun c => is_lower c || is_digit c) (lower title).

(** *** [re.search(r'/course/([^/?]+)', s)], group 1 *)
Definition slug_char (c : ascii) : bool :=
  negb (Ascii.eqb c "/"%char || Ascii.eqb c "?"%char).

Fixpoint course_slug (s : string) : option string :=
  match s with
  | EmptyString => None
  | String _ s' =>
      if String.prefix "/course/" s then
        match span slug_char (drop 8 s) with
        | EmptyString => course_slug s'
        | slug => Some slug
        end
      else course_slug s'
  end.

(** *** SQLite's [LIKE]

    [%] matches any run of characters, [_] exactly one, any other
    character itself, letters of ASCII without regard to case.  No ESCAPE
    clause is used by the code. *)
Definition like_char (p c : ascii) : bool :=
  Ascii.eqb p "_"%char || Ascii.eqb (lower_char p) (lower_char c).

Fixpoint like_from (pattern : string) : string -> bool :=
  match pattern with
  | EmptyString => fun s => negb (truthy s)
  | String p pattern' =>
      if Ascii.eqb p "%"%char then
        fix any_run (s : string) : bool :=
          like_from pattern' s ||
          match s with
          | EmptyString => false
          | String _ s' => any_run s'
          end
      else
        fun s =>
          match s with
          | EmptyString => false
          | String c s' => like_char p c && like_from pattern' s'
          end
  end.

(** [value LIKE pattern] *)
Definition like (value pattern : string) : bool := like_from pattern value.

(** *** [html.escape(s)] with its default [quote=True] *)
Definition escape_char (c : ascii) : string :=
  if Ascii.eqb c "&"%char then "&amp;"
  else if Ascii.eqb c "<"%char then "&lt;"
  else if Ascii.eqb c ">"%char then "&gt;"
  else if Nat.eqb (code c) 34 then "&quot;"
  else if Ascii.eqb c "'"%char then "&#x27;"
  else String c EmptyString.

Fixpoint escape (s : string) : string :=
  match s with
  | EmptyString => EmptyString
  | String c s' => escape_char c ++ escape s'
  end.

End Text.

(** ** Python values and outcomes *)

(** The values a caller may hand over where the code expects a [str]. *)
Inductive pyval : Type :=
| PyNone
| PyBool (b : bool)
| PyInt (z : Z)
| PyStr (s : string).

(** [bool(v)] *)
Definition py_truthy (v : pyval) : bool :=
  match v with
  | PyNone => false
  | PyBool b => b
  | PyInt z => negb (Z.eqb z 0)
  | PyStr s => Text.truthy s
  end.

(** [isinstance(v, str)] *)
Definition isinstance_str (v : pyval) : bool :=
  match v with PyStr _ => true | _ => false end.

(** An optional [str] argument: [None] or the empty string are false. *)
Definition opt_truthy (o : option string) : bool :=
  match o with Some s => Text.truthy s | None => false end.

(** A call either returns or raises. *)
Inductive outcome (E A : Type) : Type :=
| Returned (a : A)
| Raised (e : E).
Arguments Returned {E A} a.
Arguments Raised {E A} e.

(** ** [CourseDatabase] *)

Module CourseDatabase.

(** A row of table [posted_courses]. *)
Record row : Type := mkRow {
  id : nat;
  course_title : string;
  coupon_link : string;
  udemy_url : option string;
  posted_at : Z;
  source : option string
}.

(** The table, oldest row first. *)
Definition store : Type := list row.

(** The calls into [sqlite3] made by [is_posted] and [mark_posted]. *)
Inductive storage_op : Type :=
| OpConnect
| OpCursor
| OpSelectLink
| OpFetchLink
| OpSelectSlug
| OpFetchSlug
| OpSelectTitles
| OpFetchTitles
| OpInsert
| OpCommit.

Inductive db_error : Type :=
| StorageError (op : storage_op)
| IntegrityError.

(** Which calls raise: the faults of the storage layer. *)
Definition faults : Type := storage_op -> bool.

Definition healthy : faults := fun _ => false.

(** A computation on the storage layer: the calls it made, in order, and
    how it ended. *)
Definition io (A : Type) : Type := (list storage_op * outcome db_error A)%type.

Definition ret {A} (a : A) : io A := ([], Returned a).

Definition bind {A B} (m : io A) (k : A -> io B) : io B :=
  match m with
  | (ops, Returned a) => let '(ops', r) := k a in ((ops ++ ops')%list, r)
  | (ops, Raised e) => (ops, Raised e)
  end.

Declare Scope io_scope.
Delimit Scope io_scope with io.
Notation "x <- m ;; k" := (bind m (fun x => k))
  (at level 61, m at next level, right associativity) : io_scope.
Notation "m ;;; k" := (bind m (fun _ => k))
  (at level 61, right associativity) : io_scope.

(** One call into [sqlite3]: it is made, and it raises when the layer is
    at fault there. *)
Definition sql {A} (f : faults) (op : storage_op) (result : A) : io A :=
  ([op], if f op then Raised (StorageError op) else Returned result).

Open Scope io_scope.

(** [SELECT 1 FROM posted_courses WHERE coupon_link = ? OR coupon_link LIKE ?] *)
Definition select_link (db : store) (exact pattern : string) : list row :=
  List.filter
    (fun r => String.eqb (coupon_link r) exact || Text.like (coupon_link r) pattern)
    db.

(** [SELECT udemy_url FROM posted_courses WHERE udemy_url LIKE ?]; a NULL
    column matches nothing. *)
Definition select_slug (db : store) (pattern : string) : list row :=
  List.filter
    (fun r => match udemy_url r with
              | Some u => Text.like u pattern
              | None => false
              end)
    db.

(** [c.fetchone() is not None] *)
Definition fetched {A} (rows : list A) : bool :=
  match rows with [] => false | _ :: _ => true end.

(** Method 1: the coupon link, exactly or as a prefix. *)
Definition by_coupon_link (f : faults) (db : store) (link : string)
  : io bool :=
  if Text.truthy link then
    let normalized_coupon := Text.strip_query link in
    rows <- sql f OpSelectLink (select_link db link (normalized_coupon ++ "%")) ;;
    hit <- sql f OpFetchLink (fetched rows) ;;
    ret hit
  else ret false.

(** Method 2: the course slug of the Udemy URL. *)
Definition by_course_slug (f : faults) (db : store) (url : option string)
  : io bool :=
  match url with
  | Some u =>
      if Text.truthy u then
        let normalized_udemy := Text.strip_query u in
        match Text.course_slug normalized_udemy with
        | Some course_slug =>
            rows <- sql f OpSelectSlug
                      (select_slug db ("%" ++ course_slug ++ "%")) ;;
            hit <- sql f OpFetchSlug (fetched rows) ;;
            ret hit
        | None => ret false
        end
      else ret false
  | None => ret false
  end.

(** The comparison of two normalized titles in method 3. *)
Definition similar (normalized_title normalized_posted : string) : bool :=
  String.eqb normalized_title normalized_posted
  || (Nat.ltb 20 (String.length normalized_title)
      && Text.contains normalized_title normalized_posted)
  || (Nat.ltb 20 (String.length normalized_posted)
      && Text.contains normalized_posted normalized_title).

(** Method 3: the title, normalized. *)
Definition by_title (f : faults) (db : store) (title : option string)
  : io bool :=
  match title with
  | Some t =>
      if Text.truthy t then
        let normalized_title := Text.normalize_title t in
        if Nat.ltb 10 (String.length normalized_title) then
          rows <- sql f OpSelectTitles (List.map course_title db) ;;
          posted_titles <- sql f OpFetchTitles rows ;;
          ret
            (existsb
               (fun posted_title =>
                  Text.truthy posted_title
                  && similar normalized_title (Text.normalize_title posted_title))
               posted_titles)
        else ret false
      else ret false
  | None => ret false
  end.

(** The body of the [try] in [is_posted]. *)
Definition is_posted_try (f : faults) (db : store)
    (link : string) (url title : option string) : io bool :=
  sql f OpConnect tt ;;;
  sql f OpCursor tt ;;;
  hit1 <- by_coupon_link f db link ;;
  if hit1 then ret true else
  hit2 <- by_course_slug f db url ;;
  if hit2 then ret true else
  hit3 <- by_title f db title ;;
  if hit3 then ret true else
  ret false.

(** [is_posted(coupon_link, udemy_url=None, course_title=None)], lines
    75 to 133: any exception is logged and answered [False]. *)
Definition is_posted (f : faults) (db : store)
    (link : string) (url title : option string) : bool :=
  match snd (is_posted_try f db link url title) with
  | Returned known => known
  | Raised _ => false
  end.

(** [f'{normalized_coupon}%'], where [None] prints as [None]. *)
Definition like_pattern (normalized_coupon : option string) : string :=
  match normalized_coupon with
  | Some n => n ++ "%"
  | None => "None%"
  end.

(** [a or b] on an optional [str] and a [str]. *)
Definition or_else (a : option string) (b : string) : string :=
  match a with
  | Some s => if Text.truthy s then s else b
  | None => b
  end.

Definition or_else_opt (a b : option string) : option string :=
  if opt_truthy a then a else b.

Definition next_id (db : store) : nat :=
  S (fold_right Nat.max 0 (List.map id db)).

(** [INSERT INTO posted_courses ...]: column [coupon_link] is UNIQUE. *)
Definition insert (f : faults) (db : store) (r : row) : io store :=
  ([OpInsert],
   if f OpInsert then Raised (StorageError OpInsert)
   else if existsb (fun r' => String.eqb (coupon_link r') (coupon_link r)) db
   then Raised IntegrityError
   else Returned (db ++ [r])%list).

(** [re.sub(r'[?#].*$', '', url) if url else None] *)
Definition normalized (url : option string) : option string :=
  match url with
  | Some u => if Text.truthy u then Some (Text.strip_query u) else None
  | None => None
  end.

(** The row of the INSERT: the normalized URLs, or the URLs as given when
    their normalized form is false; [now] is [int(time.time())]. *)
Definition new_row (db : store) (title link : string)
    (url src : option string) (now : Z) : row :=
  mkRow (next_id db) title
        (or_else (normalized (Some link)) link)
        (or_else_opt (normalized url) url)
        now src.

(** The body of the [try] in [mark_posted]. *)
Definition mark_posted_try (f : faults) (db : store) (title link : string)
    (url src : option string) (now : Z) : io store :=
  let normalized_coupon := normalized (Some link) in
  sql f OpConnect tt ;;;
  sql f OpCursor tt ;;;
  rows <- sql f OpSelectLink (select_link db link (like_pattern normalized_coupon)) ;;
  hit <- sql f OpFetchLink (fetched rows) ;;
  if hit then ret db else
  db' <- insert f db (new_row db title link url src now) ;;
  sql f OpCommit tt ;;;
  ret db'.

(** [mark_posted(course_title, coupon_link, udemy_url=None, source=None)],
    lines 135 to 171: every exception is logged; what was not committed is
    not stored. *)
Definition mark_posted (f : faults) (db : store) (title link : string)
    (url src : option string) (now : Z) : store :=
  match snd (mark_posted_try f db title link url src now) with
  | Returned db' => db'
  | Raised _ => db
  end.

(** The check made by a healthy call of [mark_posted] before the insertion,
    and the UNIQUE test of the insertion. *)
Definition already (db : store) (link : string) : bool :=
  fetched (select_link db link (like_pattern (normalized (Some link)))).

Definition clash (db : store) (r : row) : bool :=
  existsb (fun r' => String.eqb (coupon_link r') (coupon_link r)) db.

(** [n] calls of [mark_posted] for one listing on a healthy store; the
    titles, Udemy URLs, sources and clock readings of the calls are free. *)
Fixpoint mark_posted_times (db : store) (link : string)
    (calls : list (string * option string * option string * Z)) : store :=
  match calls with
  | [] => db
  | (title, url, src, now) :: calls' =>
      mark_posted_times (mark_posted healthy db title link url src now) link calls'
  end.

Close Scope io_scope.

End CourseDatabase.

(** ** [UdemyScraper.get_udemy_course_info] *)

Module UdemyScraper.

Inductive tag_name : Type := TagA | TagButton | TagOther.

(** An element of the parsed page with the attributes the resolver reads;
    [class_] is the raw text of the [class] attribute. *)
Record element : Type := mkElement {
  tag : tag_name;
  href : option string;
  class_ : option string;
  onclick : option string
}.

(** The soup: the elements of the landing page in document order. *)
Definition page : Type := list element.

(** What [session.get(..., allow_redirects=True)] answers: the final URL
    and the parsed body. *)
Record response : Type := mkResponse {
  url : string;
  text : page
}.

(** The network: [None] when the request raises. *)
Definition web : Type := string -> option response.

(** [tag.get(name, '')] *)
Definition attr (a : option string) : string :=
  match a with Some s => s | None => EmptyString end.

Definition is_tag (t : tag_name) (e : element) : bool :=
  match t, tag e with
  | TagA, TagA => true
  | TagButton, TagButton => true
  | _, _ => false
  end.

(** [soup.find_all('a', href=re.compile(needle))] for a literal needle. *)
Definition find_all_a_href (needle : string) (soup : page) : list element :=
  List.filter
    (fun e => is_tag TagA e &&
              match href e with
              | Some h => Text.contains needle h
              | None => false
              end)
    soup.

(** [re.compile(r'button|btn|get|course')] searched in a class. *)
Definition button_class (c : string) : bool :=
  Text.contains "button" c || Text.contains "btn" c
  || Text.contains "get" c || Text.contains "course" c.

(** [soup.find_all('button') + soup.find_all('a', class_=...)] *)
Definition find_buttons (soup : page) : list element :=
  List.filter (is_tag TagButton) soup ++
  List.filter
    (fun e => is_tag TagA e &&
              match class_ e with
              | Some c => button_class c
              | None => false
              end)
    soup.

(** The completion of a scraped [href] into an absolute URL. *)
Definition absolute (href : string) : string :=
  if Text.startswith href "/" then "https://www.udemy.com" ++ href
  else if negb (Text.startswith href "http") then "https://" ++ href
  else href.

(** The loop over [udemy_links] of the [/go/] branch: both arms return. *)
Fixpoint first_udemy_link_go (udemy_links : list element) : option string :=
  match udemy_links with
  | [] => None
  | link :: rest =>
      let href := attr (href link) in
      if Text.contains "udemy.com" href && Text.contains "couponCode=" href
      then Some (absolute href)
      else if Text.contains "udemy.com" href
      then Some (absolute href)
      else first_udemy_link_go rest
  end.

(** The loop over [udemy_links] of the other branch. *)
Fixpoint first_udemy_link (udemy_links : list element) : option string :=
  match udemy_links with
  | [] => None
  | link :: rest =>
      let href := attr (href link) in
      if Text.contains "udemy.com" href
      then Some (absolute href)
      else first_udemy_link rest
  end.

(** The class of the pattern below: anything but white space and the two
    quote characters. *)
Definition url_char (c : ascii) : bool :=
  negb (Text.is_space c || Ascii.eqb c "'"%char || Nat.eqb (Text.code c) 34).

(** The pattern of [re.search] on [onclick]: [https?://], a run of the
    class, [udemy\.com], a run of the class.  Matched at the start of [s]:
    the scheme and the whole run of URL characters after it, when the
    run holds the domain. *)
Definition match_url_with (scheme s : string) : option string :=
  if String.prefix scheme s then
    let run := Text.span url_char (Text.drop (String.length scheme) s) in
    if Text.contains "udemy.com" run then Some (scheme ++ run)%string else None
  else None.

Definition match_url_at (s : string) : option string :=
  match match_url_with "https://" s with
  | Some m => Some m
  | None => match_url_with "http://" s
  end.

(** [re.search] of that pattern: the leftmost match. *)
Fixpoint search_udemy_url (s : string) : option string :=
  match match_url_at s with
  | Some m => Some m
  | None =>
      match s with
      | EmptyString => None
      | String _ s' => search_udemy_url s'
      end
  end.

(** The loop over [buttons]. *)
Fixpoint first_onclick_url (buttons : list element) : option string :=
  match buttons with
  | [] => None
  | btn :: rest =>
      let onclick := attr (onclick btn) in
      if Text.contains "udemy.com" onclick then
        match search_udemy_url onclick with
        | Some m => Some m
        | None => first_onclick_url rest
        end
      else first_onclick_url rest
  end.

(** The [/go/] branch once the response is in. *)
Definition scan_redirect (r : response) : option string :=
  if Text.contains "udemy.com" (url r) then Some (url r)
  else
    match first_udemy_link_go (find_all_a_href "udemy.com" (text r)) with
    | Some u => Some u
    | None => first_onclick_url (find_buttons (text r))
    end.

(** [soup.find('a', href=re.compile(r'/go/'))] and the link taken from it,
    completed against the site ([COUPONAMI_URL] does not name discudemy). *)
Definition next_go_link (soup : page) : option string :=
  match find_all_a_href "/go/" soup with
  | get_button :: _ =>
      let go_link := attr (href get_button) in
      if Text.truthy go_link then
        Some (if Text.startswith go_link "/"
              then ("https://www.couponami.com" ++ go_link)%string
              else go_link)
      else None
  | [] => None
  end.

(** What an invocation does, for the record: it is entered with a depth,
    and it may send one request. *)
Inductive event : Type :=
| Enter (link : pyval) (depth : Z)
| Request (link : string) (depth : Z).

Definition event_depth (e : event) : Z :=
  match e with
  | Enter _ d => d
  | Request _ d => d
  end.

Definition is_request (e : event) : bool :=
  match e with Request _ _ => true | Enter _ _ => false end.

(** The invocations still allowed below depth [d] by the guard
    [recursion_depth > 3]. *)
Definition budget (d : Z) : nat := Z.to_nat (4 - d).
#[global] Opaque budget.

(** [get_udemy_course_info(coupon_link, recursion_depth=0)], lines 523 to
    626: the ['udemy_url'] entry of the returned dict ([None] for [{}]) and
    the record of the invocations.  A request that raises is answered by
    the empty dict. *)
Equations? get_udemy_course_info (w : web) (coupon_link : pyval)
    (recursion_depth : Z) : option string * list event
  by wf (budget recursion_depth) lt :=
  get_udemy_course_info w coupon_link recursion_depth
    with Z_gt_le_dec recursion_depth 3 := {
    | left _ => (None, [Enter coupon_link recursion_depth]);
    | right Hle =>
        if negb (py_truthy coupon_link) || negb (isinstance_str coupon_link)
        then (None, [Enter coupon_link recursion_depth])
        else
          match coupon_link with
          | PyStr link =>
              match w link with
              | None =>
                  (None, [Enter coupon_link recursion_depth;
                          Request link recursion_depth])
              | Some r =>
                  if Text.contains "/go/" link then
                    (scan_redirect r,
                     [Enter coupon_link recursion_depth;
                      Request link recursion_depth])
                  else
                    match next_go_link (text r) with
                    | Some go_link =>
                        let sub :=
                          get_udemy_course_info w (PyStr go_link)
                                                (recursion_depth + 1) in
                        (fst sub,
                         Enter coupon_link recursion_depth
                           :: Request link recursion_depth :: snd sub)
                    | None =>
                        (first_udemy_link (find_all_a_href "udemy.com" (text r)),
                         [Enter coupon_link recursion_depth;
                          Request link recursion_depth])
                    end
              end
          | _ => (None, [Enter coupon_link recursion_depth])
          end }.
Proof. Transparent budget. unfold budget. lia. Qed.

End UdemyScraper.

(** ** A scraped course *)

(** The dict built by the scraper.  [None] stands for a missing key and,
    for the optional details, also for a [None] value. *)
Record course : Type := mkCourse {
  title : option string;
  coupon_link : option string;
  udemy_url : option string;
  thumbnail : option string;
  source : option string;
  language : option string;
  publisher : option string;
  rate : option string;
  enroll : option string
}.

(** [course.get(key, default)] *)
Definition get_or (field : option string) (default : string) : string :=
  match field with Some s => s | None => default end.

(** ** [TelegramChannelPoster.format_course_message] *)

Module TelegramChannelPoster.

Definition nl : string := String Text.newline EmptyString.

(** The link shown in the message: the Udemy URL, or else the coupon link. *)
Definition shown_link (c : course) : string :=
  if Text.truthy (get_or (udemy_url c) EmptyString)
  then get_or (udemy_url c) EmptyString
  else get_or (coupon_link c) EmptyString.

(** One optional line of the details section: shown when the field is
    true, escaped. *)
Definition detail_line (label : string) (field : option string) : string :=
  match field with
  | Some v =>
      if Text.truthy v then (label ++ Text.escape v ++ nl)%string
      else EmptyString
  | None => EmptyString
  end.

(** [format_course_message(course)], lines 650 to 688. *)
Definition format_course_message (c : course) : string :=
  let title := Text.escape (get_or (title c) "Free Udemy Course") in
  let coupon_link := get_or (coupon_link c) EmptyString in
  let udemy_url := get_or (udemy_url c) EmptyString in
  ("🎓 <b>" ++ title ++ "</b>" ++ nl ++ nl
   ++ "📋 <b>Course Details:</b>" ++ nl
   ++ detail_line "🌐 <b>Language:</b> " (language c)
   ++ detail_line "👤 <b>Publisher:</b> " (publisher c)
   ++ detail_line "⭐ <b>Rate:</b> " (rate c)
   ++ detail_line "👥 <b>Enroll:</b> " (enroll c)
   ++ nl
   ++ (if Text.truthy udemy_url
       then "🔗 <b>Get Course:</b> " ++ udemy_url ++ nl
       else "🔗 <b>Get Course:</b> " ++ coupon_link ++ nl)
   ++ nl ++ "⏰ <i>Limited time offer! Enroll now before it expires.</i>" ++ nl
   ++ nl ++ "#DIU #Udemy #FreeCourse")%string.

End TelegramChannelPoster.

(** ** [UdemyCoursesBot] *)

Module UdemyCoursesBot.

(** What [get_course_details] returns. *)
Record details : Type := mkDetails {
  d_language : option string;
  d_publisher : option string;
  d_rate : option string;
  d_enroll : option string
}.

(** The collaborators of a pass: the scraper's result, the network seen by
    the resolver, the detail pages and the faults of the storage layer. *)
Record env : Type := mkEnv {
  scrape_all : list course;
  the_web : UdemyScraper.web;
  get_course_details : string -> details;
  db_faults : CourseDatabase.faults
}.

(** The shared state: the table of posted courses and the clock. *)
Record world : Type := mkWorld {
  db : CourseDatabase.store;
  clock : Z
}.

(** What a pass does, with the position of the course in the scraped list. *)
Inductive event : Type :=
| EvScrape
| EvCheck (i : nat) (known : bool)
| EvDetails (i : nat)
| EvPublish (i : nat) (c : course) (ok : bool)
| EvRecord (i : nat) (title link : string).

(** The points where a pass gives the event loop the hand. *)
Inductive await : Type :=
| AwaitDelete
| AwaitPost (c : course)
| AwaitSleep (seconds : Z).

(** A suspended coroutine: finished, or waiting at an [await] with what it
    does, once resumed with the answer, up to its next [await]. *)
#[warnings="-register-all"] Inductive coro : Type :=
| Done
| Await (a : await) (k : bool -> world -> world * list event * coro).

Definition segment : Type := (world * list event * coro)%type.

(** Events emitted before a segment. *)
Definition after (evs : list event) (s : segment) : segment :=
  let '(w, evs', c) := s in (w, (evs ++ evs')%list, c).

Definition set_udemy_url (c : course) (u : option string) : course :=
  mkCourse (title c) (coupon_link c) u (thumbnail c) (source c)
           (language c) (publisher c) (rate c) (enroll c).

Definition pick (new old : option string) : option string :=
  if opt_truthy new then new else old.

(** The four conditional copies of the details into the course. *)
Definition add_details (c : course) (d : details) : course :=
  mkCourse (title c) (coupon_link c) (udemy_url c) (thumbnail c) (source c)
           (pick (d_language d) (language c))
           (pick (d_publisher d) (publisher c))
           (pick (d_rate d) (rate c))
           (pick (d_enroll d) (enroll c)).

(** The resolver's answer kept when its ['udemy_url'] is true. *)
Definition resolved (e : env) (link : string) : option string :=
  let info := fst (UdemyScraper.get_udemy_course_info (the_web e) (PyStr link) 0) in
  if opt_truthy info then info else None.

(** The first loop of [process_courses]: the courses not yet posted. *)
Fixpoint filter_new (e : env) (table : CourseDatabase.store)
    (courses : list (nat * course)) : list (nat * course) * list event :=
  match courses with
  | [] => ([], [])
  | (i, c) :: rest =>
      let coupon_link := get_or (coupon_link c) EmptyString in
      let course_title := get_or (title c) EmptyString in
      let udemy_url :=
        if Text.truthy coupon_link then resolved e coupon_link else None in
      let c' :=
        match udemy_url with
        | Some _ => set_udemy_url c udemy_url
        | None => c
        end in
      let known :=
        CourseDatabase.is_posted (db_faults e) table coupon_link udemy_url
                                 (Some course_title) in
      let '(new_courses, evs) := filter_new e table rest in
      if known then (new_courses, EvCheck i true :: evs)
      else ((i, c') :: new_courses, EvCheck i false :: evs)
  end.

(** The details fetched when the language is missing and the link is not
    a [/go/] link. *)
Definition with_details (e : env) (i : nat) (c : course) (coupon_link : string)
  : course * list event :=
  if negb (opt_truthy (language c)) && negb (Text.contains "/go/" coupon_link)
  then (add_details c (get_course_details e coupon_link), [EvDetails i])
  else (c, []).

Definition record (e : env) (w : world) (c : course) (title link : string)
  : world :=
  mkWorld (CourseDatabase.mark_posted (db_faults e) (db w) title link
                                      (udemy_url c) (source c) (clock w))
          (clock w).

(** The second loop of [process_courses]: post, then mark, then sleep. *)
Fixpoint post_all (e : env) (new_courses : list (nat * course)) (w : world)
  : segment :=
  match new_courses with
  | [] => (w, [], Done)
  | (i, c) :: rest =>
      let coupon_link := get_or (coupon_link c) EmptyString in
      let course_title := get_or (title c) "Unknown" in
      let '(c', evs) := with_details e i c coupon_link in
      (w, evs,
       Await (AwaitPost c')
         (fun success w1 =>
            if success then
              (record e w1 c' course_title coupon_link,
               [EvPublish i c' true; EvRecord i course_title coupon_link],
               Await (AwaitSleep 2) (fun _ w2 => post_all e rest w2))
            else
              after [EvPublish i c' false] (post_all e rest w1)))
  end.

(** The scraped courses with their positions. *)
Definition indexed (courses : list course) : list (nat * course) :=
  combine (seq 0 (List.length courses)) courses.

(** [process_courses()], lines 755 to 871, up to its first [await]. *)
Definition process_courses (e : env) (w : world) : segment :=
  match scrape_all e with
  | [] => (w, [EvScrape], Done)
  | courses =>
      let '(new_courses, evs) := filter_new e (db w) (indexed courses) in
      match new_courses with
      | [] => (w, EvScrape :: evs, Done)
      | _ => after (EvScrape :: evs) (post_all e new_courses w)
      end
  end.

(** The number read from the command, clamped to 1..50; [None] when there
    is no argument or it is not an integer. *)
Definition num_courses (arg : option Z) : nat :=
  match arg with
  | Some n => Z.to_nat (Z.min 50 (Z.max 1 n))
  | None => 10
  end.

(** The course as posted by [/test]: details and Udemy URL added. *)
Definition prepared (e : env) (i : nat) (c : course) : course * list event :=
  let coupon_link := get_or (coupon_link c) EmptyString in
  let '(c1, evs) := with_details e i c coupon_link in
  let c2 :=
    if Text.truthy coupon_link && negb (opt_truthy (udemy_url c1)) then
      match resolved e coupon_link with
      | Some u => set_udemy_url c1 (Some u)
      | None => c1
      end
    else c1 in
  (c2, evs).

(** The loop of [handle_test_command]. *)
Fixpoint post_selected (e : env) (courses_to_post : list (nat * course))
    (w : world) : segment :=
  match courses_to_post with
  | [] => (w, [], Done)
  | (i, c) :: rest =>
      let coupon_link := get_or (coupon_link c) EmptyString in
      let course_title := get_or (title c) "Unknown" in
      let '(c', evs) := prepared e i c in
      let pause (s : segment) : segment :=
        match rest with
        | [] => s
        | _ :: _ =>
            let '(w', evs', _) := s in
            (w', evs', Await (AwaitSleep 2) (fun _ w2 => post_selected e rest w2))
        end in
      (w, evs,
       Await (AwaitPost c')
         (fun success w1 =>
            if success then
              if Text.truthy coupon_link
                 && negb (CourseDatabase.is_posted (db_faults e) (db w1)
                            coupon_link None None)
              then pause (record e w1 c' course_title coupon_link,
                          [EvPublish i c' true;
                           EvRecord i course_title coupon_link],
                          Done)
              else pause (w1, [EvPublish i c' true], Done)
            else pause (w1, [EvPublish i c' false], Done)))
  end.

(** What [handle_test_command] does once the command message is gone. *)
Definition after_delete (e : env) (arg : option Z) (w1 : world) : segment :=
  match scrape_all e with
  | [] => (w1, [EvScrape], Done)
  | courses =>
      match firstn (num_courses arg) (indexed courses) with
      | [] => (w1, [EvScrape], Done)
      | courses_to_post => after [EvScrape] (post_selected e courses_to_post w1)
      end
  end.

(** [handle_test_command(update, context)], lines 873 to 985: the command
    message is deleted first (a failure there is only logged). *)
Definition handle_test_command (e : env) (arg : option Z) (w : world)
  : segment :=
  (w, [], Await AwaitDelete (fun _ w1 => after_delete e arg w1)).

(** *** One pass on its own

    [answers n] is what the [n]-th [await] of the pass yields. *)
Fixpoint drive (answers : nat -> bool) (n : nat) (c : coro) (w : world)
  : world * list event :=
  match c with
  | Done => (w, [])
  | Await _ k =>
      let '(w1, evs, c') := k (answers n) w in
      let '(w2, evs') := drive answers (S n) c' w1 in
      (w2, (evs ++ evs')%list)
  end.

Definition run (answers : nat -> bool) (s : segment) : world * list event :=
  let '(w, evs, c) := s in
  let '(w', evs') := drive answers 0 c w in
  (w', (evs ++ evs')%list).

(** A whole scheduled pass. *)
Definition run_pass (e : env) (answers : nat -> bool) (w : world)
  : world * list event :=
  run answers (process_courses e w).

(** *** Passes sharing the event loop

    The entry points are coroutines of one [asyncio] loop: a pass runs
    alone between two of its [await]s, and at an [await] any other
    coroutine may run.  [Scheduled] is [process_courses] as started by
    [start()] (lines 1134 to 1145) and by the interval job, [OnDemand] is
    the [/test] command. *)
Inductive entry : Type :=
| Scheduled
| OnDemand (arg : option Z).

Definition start (e : env) (en : entry) (w : world) : segment :=
  match en with
  | Scheduled => process_courses e w
  | OnDemand arg => handle_test_command e arg w
  end.

(** A pass waiting at an [await]. *)
Record pass : Type := mkPass {
  pass_id : nat;
  pass_entry : entry;
  pass_coro : coro
}.

Record system : Type := mkSystem {
  shared : world;
  passes : list pass;
  started : nat;
  journal : list (nat * event)
}.

Definition boot (w : world) : system := mkSystem w [] 0 [].

Definition is_scheduled (p : pass) : bool :=
  match pass_entry p with Scheduled => true | OnDemand _ => false end.

Definition is_on_demand (p : pass) : bool :=
  match pass_entry p with Scheduled => false | OnDemand _ => true end.

(** What the two libraries leave to start, with the defaults the code
    takes.  The first pass is awaited by [start()] before the interval job
    is added (lines 1135 to 1145), and the job is added with the scheduler's
    default of one running instance: a scheduled pass does not start while
    another is unfinished.  The application is built at line 1116 without
    concurrent updates: a command is handled only after the handler of the
    previous command has returned.  The code itself restrains nothing: the
    polling of commands is started at line 1126, before the first pass, and
    neither entry point looks at what is running. *)
Definition allowed (s : system) (en : entry) : bool :=
  match en with
  | Scheduled => negb (existsb is_scheduled (passes s))
  | OnDemand _ => negb (existsb is_on_demand (passes s))
  end.

(** The system after pass [id] has run a segment. *)
Definition settle (s : system) (n : nat) (id : nat) (en : entry)
    (others : list pass) (seg : segment) : system :=
  let '(w, evs, c) := seg in
  mkSystem w
    match c with
    | Done => others
    | Await _ _ => (others ++ [mkPass id en c])%list
    end
    n
    (journal s ++ List.map (pair id) evs)%list.

Definition invoke (e : env) (en : entry) (s : system) : system :=
  settle s (S (started s)) (started s) en (passes s) (start e en (shared s)).

Definition has_id (id : nat) (p : pass) : bool := Nat.eqb (pass_id p) id.

Definition resume (answer : bool) (id : nat) (s : system) : option system :=
  match List.find (has_id id) (passes s) with
  | Some p =>
      match pass_coro p with
      | Await _ k =>
          Some (settle s (started s) id (pass_entry p)
                  (List.filter (fun q => negb (has_id id q)) (passes s))
                  (k answer (shared s)))
      | Done => None
      end
  | None => None
  end.

Inductive step (e : env) : system -> system -> Prop :=
| step_invoke (en : entry) (s : system) :
    allowed s en = true -> step e s (invoke e en s)
| step_resume (answer : bool) (id : nat) (s s' : system) :
    resume answer id s = Some s' -> step e s s'.

Inductive reachable (e : env) (s0 : system) : system -> Prop :=
| reach_here : reachable e s0 s0
| reach_step (s s' : system) :
    reachable e s0 s -> step e s s' -> reachable e s0 s'.

(** *** Reading a journal *)

(** The events of a segment followed by those of the rest of the pass. *)
Definition trace_of (answers : nat -> bool) (n : nat) (s : segment)
  : list event :=
  let '(w, evs, c) := s in (evs ++ snd (drive answers n c w))%list.

(** The world a segment and the rest of the pass end in. *)
Definition world_of (answers : nat -> bool) (n : nat) (s : segment) : world :=
  let '(w, evs, c) := s in fst (drive answers n c w).

(** The positions of the courses published, in the order of publication. *)
Fixpoint published (tr : list event) : list nat :=
  match tr with
  | [] => []
  | EvPublish i _ _ :: tr' => i :: published tr'
  | _ :: tr' => published tr'
  end.

(** Events that neither publish nor record. *)
Definition quiet (e : event) : Prop :=
  match e with
  | EvPublish _ _ _ | EvRecord _ _ _ => False
  | _ => True
  end.

(** Courses listed by increasing position, from [lo] on. *)
Fixpoint increasing_from (lo : nat) (l : list (nat * course)) : Prop :=
  match l with
  | [] => True
  | (i, _) :: l' => lo <= i /\ increasing_from (S i) l'
  end.

(** The course at position [i] of the scraped list, with details or a
    Udemy URL added. *)
Definition scraped_at (courses : list course) (i : nat) (c : course) : Prop :=
  exists c0, nth_error courses i = Some c0
             /\ title c = title c0 /\ coupon_link c = coupon_link c0.

(** The shape of the journal of a pass: a publication that succeeds is
    followed at once by the record of the same course, one that fails by
    none, and the positions published grow. *)
Inductive orderly (P : nat -> course -> Prop) : nat -> list event -> Prop :=
| orderly_nil (lo : nat) : orderly P lo []
| orderly_scrape (lo : nat) (tr : list event) :
    orderly P lo tr -> orderly P lo (EvScrape :: tr)
| orderly_check (lo i : nat) (known : bool) (tr : list event) :
    orderly P lo tr -> orderly P lo (EvCheck i known :: tr)
| orderly_details (lo i : nat) (tr : list event) :
    orderly P lo tr -> orderly P lo (EvDetails i :: tr)
| orderly_posted (lo i : nat) (c : course) (tr : list event) :
    lo <= i -> P i c -> orderly P (S i) tr ->
    orderly P lo (EvPublish i c true
                    :: EvRecord i (get_or (title c) "Unknown")
                                  (get_or (coupon_link c) EmptyString)
                    :: tr)
| orderly_failed (lo i : nat) (c : course) (tr : list event) :
    lo <= i -> P i c -> orderly P (S i) tr ->
    orderly P lo (EvPublish i c false :: tr).

(** Pass numbers are handed out once. *)
Definition fresh (s : system) : Prop :=
  Forall (fun p => pass_id p < started s) (passes s).

Definition is_scrape (id : nat) (entry : nat * event) : bool :=
  Nat.eqb (fst entry) id &&
  match snd entry with EvScrape => true | _ => false end.

(** The passes between fetching and recording: they have scraped and are
    not finished. *)
Definition active (s : system) : list pass :=
  List.filter (fun p => existsb (is_scrape (pass_id p)) (journal s)) (passes s).

End UdemyCoursesBot.

(** ** Scenarios *)

Module Scenarios.
Import UdemyScraper.

Definition anchor (h : string) : element := mkElement TagA (Some h) None None.

(** A landing page where a plain Udemy link comes before the link that
    carries the coupon code. *)
Definition plain_before_coupon : web :=
  fun _ =>
    Some (mkResponse "https://www.couponami.com/go/abc123"
            [anchor "https://www.udemy.com/course/intro-to-x/";
             anchor "https://www.udemy.com/course/intro-to-x/?couponCode=FREE100"]).

(** A chain where every landing page links onward to another [/go/] link. *)
Definition endless_chain : web :=
  fun link =>
    Some (mkResponse link [anchor ("/go/" ++ link)%string]).

(** A course whose link holds markup. *)
Definition markup_in_link : course :=
  mkCourse (Some "Intro to X") (Some "https://site/go/abc123?a=1&b=<b>")
           None None None None None None None.

(** One fresh course on the page, a healthy table, a dead network. *)
Definition one_course : UdemyCoursesBot.env :=
  UdemyCoursesBot.mkEnv
    [mkCourse (Some "Intro to X") (Some "https://site/go/abc123")
              None None (Some "couponami") (Some "English") None None None]
    (fun _ => None)
    (fun _ => UdemyCoursesBot.mkDetails None None None None)
    CourseDatabase.healthy.

(** The system once the scheduled pass waits for its first publication. *)
Definition scheduled_waits : UdemyCoursesBot.system :=
  UdemyCoursesBot.invoke one_course UdemyCoursesBot.Scheduled
    (UdemyCoursesBot.boot (UdemyCoursesBot.mkWorld [] 0)).

(** The system once the scheduled pass waits for its first publication
    and a [/test] command has been handled up to its own. *)
Definition two_passes : UdemyCoursesBot.system :=
  let s0 := UdemyCoursesBot.boot (UdemyCoursesBot.mkWorld [] 0) in
  let s1 := UdemyCoursesBot.invoke one_course UdemyCoursesBot.Scheduled s0 in
  let s2 := UdemyCoursesBot.invoke one_course (UdemyCoursesBot.OnDemand None) s1 in
  match UdemyCoursesBot.resume true 1 s2 with
  | Some s3 => s3
  | None => s2
  end.

(** A table that holds one other listing. *)
Definition another_listing : CourseDatabase.store :=
  [CourseDatabase.mkRow 1 "Intro to Y" "https://site/go/xyz789" None 0 None].

(** The table after two listings were recorded whose links differ from
    [https://site/go/abc] by what follows it. *)
Definition two_longer_links : CourseDatabase.store :=
  CourseDatabase.mark_posted CourseDatabase.healthy
    (CourseDatabase.mark_posted CourseDatabase.healthy []
       "Intro to A" "https://site/go/abc1" None None 0)
    "Intro to B" "https://site/go/abc12" None None 1.

End Scenarios.

(** ** The three lookups of [is_posted], one by one *)

Module Lookup.
Import CourseDatabase.






End Lookup.

(** ** [CourseDatabase.get_recent_courses] *)

Module RecentCourses.
Import CourseDatabase.










End RecentCourses.

(** ** Counting markup in a message *)

Module Markup.




End Markup.

(** ** More scenarios *)

Module MoreScenarios.
Import UdemyScraper.



End MoreScenarios.

(** ** The check a pass makes of a scraped course *)

Module Dedup.
Import UdemyCoursesBot.


End Dedup.

(** * Properties *)

(** ** Facts on the text helpers *)

Module TextFacts.
Import Text.

Lemma truthy_nonempty (s : string) : truthy s = true <-> s <> EmptyString.
Proof. destruct s; simpl; split; congruence. Qed.

Lemma like_char_refl (c : ascii) : like_char c c = true.
Proof. unfold like_char. rewrite Ascii.eqb_refl. apply orb_true_r. Qed.

(** A pattern that is one [%] matches every value. *)
Lemma like_anything (s : string) : like s "%" = true.
Proof.
  unfold like. simpl. induction s as [|c s IH]; simpl; [reflexivity|].
  exact IH.
Qed.

Lemma like_percent_here (pattern s : string) :
  like_from pattern s = true -> like_from (String "%" pattern) s = true.
Proof. intros H. destruct s; simpl; rewrite H; reflexivity. Qed.

Lemma like_percent_skip (pattern s : string) (c : ascii) :
  like_from (String "%" pattern) s = true ->
  like_from (String "%" pattern) (String c s) = true.
Proof. intros H. simpl in *. rewrite H. apply orb_true_r. Qed.

(** [p%] matches every value that starts with [p], wild cards of [p]
    included. *)
Lemma like_prefix (p t : string) : like (p ++ t) (p ++ "%") = true.
Proof.
  unfold like. induction p as [|c p IH].
  - apply (like_anything t).
  - change (like_from (String c (p ++ "%")) (String c (p ++ t)) = true).
    destruct (Ascii.eqb c "%") eqn:Hc.
    + apply Ascii.eqb_eq in Hc. subst c.
      apply like_percent_skip, like_percent_here, IH.
    + simpl. rewrite Hc, like_char_refl, IH. reflexivity.
Qed.

Lemma rest_after_dot_star_line (t : string) :
  no_line_feed t -> rest_after_dot_star t = Some EmptyString.
Proof.
  unfold no_line_feed. induction t as [|c t IH]; simpl; [reflexivity|].
  destruct (Ascii.eqb c newline); [discriminate|]. exact IH.
Qed.

Lemma strip_query_plain (b : string) : no_query_mark b -> strip_query b = b.
Proof.
  unfold no_query_mark. induction b as [|c b IH]; simpl; [reflexivity|].
  destruct (is_query_mark c); [discriminate|].
  intros H. rewrite (IH H). reflexivity.
Qed.

Lemma strip_query_append (b q : string) (c : ascii) :
  no_query_mark b -> is_query_mark c = true -> no_line_feed q ->
  strip_query (b ++ String c q) = b.
Proof.
  unfold no_query_mark. intros Hb Hc Hq.
  induction b as [|d b IH]; simpl in *.
  - rewrite Hc, (rest_after_dot_star_line q Hq). reflexivity.
  - destruct (is_query_mark d); [discriminate|].
    rewrite (IH Hb). reflexivity.
Qed.

Lemma append_empty_r (s : string) : (s ++ EmptyString)%string = s.
Proof. induction s as [|c s IH]; simpl; [|rewrite IH]; reflexivity. Qed.

(** The stripped form of a link with something appended is the link. *)
Lemma strip_query_appended (b q : string) :
  no_query_mark b -> appended q -> strip_query (b ++ q) = b.
Proof.
  intros Hb Hq. destruct q as [|c q].
  - rewrite append_empty_r. apply strip_query_plain, Hb.
  - destruct Hq as [Hc Hq]. apply strip_query_append; assumption.
Qed.

Lemma filter_append (keep : ascii -> bool) (x y : string) :
  filter keep (x ++ y) = (filter keep x ++ filter keep y)%string.
Proof.
  induction x as [|c x IH]; simpl; [reflexivity|].
  destruct (keep c); simpl; rewrite IH; reflexivity.
Qed.

Lemma no_line_feed_append (x y : string) :
  no_line_feed x -> no_line_feed y -> no_line_feed (x ++ y).
Proof.
  unfold no_line_feed. intros Hx Hy. rewrite filter_append, Hx, Hy. reflexivity.
Qed.

Lemma no_line_feed_tail (c : ascii) (s : string) :
  no_line_feed (String c s) -> Ascii.eqb c newline = false /\ no_line_feed s.
Proof.
  unfold no_line_feed. simpl. destruct (Ascii.eqb c newline); [discriminate|].
  auto.
Qed.

Lemma query_mark_no_line_feed (c : ascii) (q : string) :
  is_query_mark c = true -> no_line_feed q -> no_line_feed (String c q).
Proof.
  unfold no_line_feed, is_query_mark. intros Hc Hq. simpl.
  destruct (Ascii.eqb c newline) eqn:Hn; [|exact Hq].
  apply Ascii.eqb_eq in Hn. subst c. discriminate Hc.
Qed.

(** A text on one line is a link without a mark followed by nothing, or by
    a query string or a fragment. *)
Lemma split_at_mark (u : string) :
  no_line_feed u ->
  exists b q, u = (b ++ q)%string /\ no_query_mark b /\ appended q
              /\ no_line_feed q.
Proof.
  induction u as [|c u IH]; intros Hu.
  - exists EmptyString, EmptyString. repeat split.
  - destruct (no_line_feed_tail c u Hu) as [Hc Hu'].
    destruct (is_query_mark c) eqn:Hm.
    + exists EmptyString, (String c u). repeat split; assumption.
    + destruct (IH Hu') as (b & q & -> & Hb & Hq & Hl).
      exists (String c b), q. repeat split; try assumption.
      unfold no_query_mark. simpl. rewrite Hm. exact Hb.
Qed.

(** A query string or a fragment put after what was appended already. *)
Lemma appended_more (q : string) (c : ascii) (q' : string) :
  appended q -> no_line_feed q ->
  is_query_mark c = true -> no_line_feed q' ->
  appended (q ++ String c q').
Proof.
  intros Hq Hl Hc Hq'. destruct q as [|d q]; simpl.
  - split; assumption.
  - destruct Hq as [Hd _]. split; [exact Hd|].
    apply no_line_feed_append.
    + exact (proj2 (no_line_feed_tail d q Hl)).
    + apply query_mark_no_line_feed; assumption.
Qed.

Lemma append_assoc (x y z : string) :
  ((x ++ y) ++ z)%string = (x ++ y ++ z)%string.
Proof. induction x as [|c x IH]; simpl; [|rewrite IH]; reflexivity. Qed.

(** [.] stops at a line feed: a query string that holds one is left in
    place, and one that ends the text with one leaves the line feed. *)
Example strip_query_line_feed :
  strip_query (String "a" (String "?" (String "b" (String newline "c"))))
  = String "a" (String "?" (String "b" (String newline "c")))
  /\ strip_query (String "a" (String "?" (String "b" (String newline EmptyString))))
     = String "a" (String newline EmptyString).
Proof. split; reflexivity. Qed.

End TextFacts.

(** ** [CourseDatabase] *)

Module CourseDatabaseFacts.
Import Text TextFacts CourseDatabase.
#[local] Arguments normalized : simpl never.
#[local] Arguments new_row : simpl never.

Lemma mark_posted_healthy (db : store) (title link : string)
    (url src : option string) (now : Z) :
  mark_posted healthy db title link url src now =
  if already db link then db
  else if clash db (new_row db title link url src now) then db
  else (db ++ [new_row db title link url src now])%list.
Proof.
  unfold mark_posted, mark_posted_try, already, clash, new_row, normalized,
    insert, sql, healthy, bind.
  destruct (fetched _); [reflexivity|].
  destruct (existsb _ db); reflexivity.
Qed.

Lemma fetched_filter {A} (p : A -> bool) (l : list A) :
  fetched (List.filter p l) = existsb p l.
Proof.
  induction l as [|a l IH]; simpl; [reflexivity|].
  destruct (p a); simpl; [reflexivity|exact IH].
Qed.

Lemma is_posted_healthy_link (db : store) (link : string)
    (url title : option string) :
  truthy link = true ->
  fetched (select_link db link (strip_query link ++ "%")) = true ->
  is_posted healthy db link url title = true.
Proof.
  intros Hl Hf.
  unfold is_posted, is_posted_try, by_coupon_link, sql, healthy, bind.
  rewrite Hl, Hf. reflexivity.
Qed.

(** A row found once is found in the longer table. *)
Lemma select_link_app (db extra : store) (exact pattern : string) :
  fetched (select_link db exact pattern) = true ->
  fetched (select_link (db ++ extra) exact pattern) = true.
Proof.
  unfold select_link. rewrite !fetched_filter, existsb_app.
  intros ->. reflexivity.
Qed.

Lemma stored_link_matches (link : string) :
  like (or_else (normalized (Some link)) link) (strip_query link ++ "%") = true.
Proof.
  unfold normalized. destruct (truthy link) eqn:Hl; simpl.
  - destruct (strip_query link) as [|c n] eqn:Hn; simpl truthy; cbv iota.
    + apply like_anything.
    + rewrite <- (append_empty_r (String c n)) at 1. apply like_prefix.
  - destruct link; [|discriminate]. reflexivity.
Qed.

(** After [mark_posted link], the table answers every link with the same
    stripped form, provided [link] itself matches its stripped form as a
    prefix. *)
Lemma is_posted_after_mark (db : store) (title link : string)
    (url src : option string) (now : Z) (link' : string)
    (url' title' : option string) :
  truthy link' = true ->
  strip_query link' = strip_query link ->
  like link (strip_query link ++ "%") = true ->
  is_posted healthy (mark_posted healthy db title link url src now)
            link' url' title' = true.
Proof.
  intros Hne Hsame Hpre.
  apply is_posted_healthy_link; [exact Hne|].
  rewrite Hsame, mark_posted_healthy.
  assert (Hold : forall r, In r db ->
            (String.eqb (coupon_link r) link
             || like (coupon_link r) (like_pattern (normalized (Some link)))) = true ->
            like (coupon_link r) (strip_query link ++ "%") = true).
  { intros r _ Hr. apply orb_true_iff in Hr as [Hr|Hr].
    - apply String.eqb_eq in Hr. rewrite Hr. exact Hpre.
    - unfold normalized in Hr. destruct (truthy link) eqn:Hl; [exact Hr|].
      destruct link; [|discriminate]. apply like_anything. }
  assert (Hfound : forall p : row -> bool,
            existsb p db = true ->
            (forall r, In r db -> p r = true ->
                       like (coupon_link r) (strip_query link ++ "%") = true) ->
            fetched (select_link db link' (strip_query link ++ "%")) = true).
  { intros p Hp Himp. unfold select_link. rewrite fetched_filter.
    apply existsb_exists in Hp as (r & Hin & Hr).
    apply existsb_exists. exists r. split; [exact Hin|].
    rewrite (Himp r Hin Hr). apply orb_true_r. }
  destruct (already db link) eqn:Hal.
  - unfold already, select_link in Hal. rewrite fetched_filter in Hal.
    exact (Hfound _ Hal Hold).
  - destruct (clash db _) eqn:Hcl.
    + unfold clash in Hcl. apply (Hfound _ Hcl).
      intros r _ Hr. apply String.eqb_eq in Hr. rewrite Hr.
      apply stored_link_matches.
    + unfold select_link, new_row. rewrite fetched_filter, existsb_app.
      cbn [existsb coupon_link].
      rewrite stored_link_matches. rewrite !orb_true_r. reflexivity.
Qed.

(** Two links with one base: [b] is recorded with [q1] appended and looked
    up with [q2] appended, where each of [q1], [q2] is nothing or a query
    string or a fragment, and the link looked up is not empty. *)
Lemma is_posted_same_base (db : store) (b q1 q2 title : string)
    (url src : option string) (now : Z) (url' title' : option string) :
  no_query_mark b -> appended q1 -> appended q2 ->
  (b ++ q2)%string <> EmptyString ->
  is_posted healthy
    (mark_posted healthy db title (b ++ q1) url src now)
    (b ++ q2) url' title' = true.
Proof.
  intros Hb H1 H2 Hne.
  apply is_posted_after_mark.
  - apply truthy_nonempty, Hne.
  - rewrite !strip_query_appended by assumption. reflexivity.
  - rewrite strip_query_appended by assumption. apply like_prefix.
Qed.

(** The row stored for a link is found by the check made for that link. *)
Lemma stored_link_found (link : string) :
  String.eqb (or_else (normalized (Some link)) link) link
  || like (or_else (normalized (Some link)) link) (like_pattern (normalized (Some link)))
  = true.
Proof.
  unfold normalized. destruct (truthy link) eqn:Hl; simpl.
  - destruct (strip_query link) as [|c n] eqn:Hn; simpl truthy; cbv iota.
    + rewrite String.eqb_refl. reflexivity.
    + rewrite <- (append_empty_r (String c n)) at 2.
      rewrite like_prefix. apply orb_true_r.
  - rewrite String.eqb_refl. reflexivity.
Qed.

Lemma already_after_insert (db : store) (title link : string)
    (url src : option string) (now : Z) :
  already (db ++ [new_row db title link url src now]) link = true.
Proof.
  unfold already, select_link. rewrite fetched_filter, existsb_app. simpl.
  rewrite stored_link_found. rewrite orb_true_r. reflexivity.
Qed.

(** The UNIQUE test never fires after the check has found nothing. *)
Lemma no_clash (db : store) (title link : string)
    (url src : option string) (now : Z) :
  already db link = false -> clash db (new_row db title link url src now) = false.
Proof.
  unfold already, clash, select_link. rewrite fetched_filter.
  intros Hal.
  destruct (existsb (fun r' => String.eqb (coupon_link r') _) db) eqn:Hcl;
    [|reflexivity].
  apply existsb_exists in Hcl as (r & Hin & Hr).
  apply String.eqb_eq in Hr. simpl in Hr.
  assert (Hex : existsb
            (fun r0 => String.eqb (coupon_link r0) link
                       || like (coupon_link r0) (like_pattern (normalized (Some link))))
            db = true).
  { apply existsb_exists. exists r. split; [exact Hin|].
    rewrite Hr. apply stored_link_found. }
  congruence.
Qed.

Lemma mark_posted_stores (db : store) (title link : string)
    (url src : option string) (now : Z) :
  already db link = false ->
  mark_posted healthy db title link url src now
  = (db ++ [new_row db title link url src now])%list.
Proof.
  intros Hal. rewrite mark_posted_healthy, Hal, (no_clash _ _ _ _ _ _ Hal).
  reflexivity.
Qed.

Lemma mark_posted_known (db : store) (title link : string)
    (url src : option string) (now : Z) :
  already db link = true -> mark_posted healthy db title link url src now = db.
Proof. intros Hal. rewrite mark_posted_healthy, Hal. reflexivity. Qed.

Lemma already_after_mark (db : store) (title link : string)
    (url src : option string) (now : Z) :
  already (mark_posted healthy db title link url src now) link = true.
Proof.
  destruct (already db link) eqn:Hal.
  - rewrite mark_posted_known; assumption.
  - rewrite mark_posted_stores by assumption. apply already_after_insert.
Qed.

Lemma mark_posted_times_known (db : store) (link : string)
    (calls : list (string * option string * option string * Z)) :
  already db link = true -> mark_posted_times db link calls = db.
Proof.
  intros Hal. induction calls as [|[[[t u] s] n] calls IH]; simpl.
  - reflexivity.
  - rewrite mark_posted_known; assumption.
Qed.

(** The link stored by [mark_posted]: the stripped form, or the link as
    given when the stripped form is empty. *)
Lemma stored_link (link : string) :
  or_else (normalized (Some link)) link
  = if truthy (strip_query link) then strip_query link else link.
Proof.
  unfold normalized. destruct (truthy link) eqn:Hl; simpl; [reflexivity|].
  destruct link; [reflexivity|discriminate].
Qed.

(** A link on one line matches its own stripped form as a prefix. *)
Lemma link_matches_base (link : string) :
  no_line_feed link -> like link (strip_query link ++ "%") = true.
Proof.
  intros Hlink.
  destruct (split_at_mark link Hlink) as (b & q & -> & Hb & Hq & _).
  rewrite strip_query_appended by assumption. apply like_prefix.
Qed.

(** After [mark_posted link] the table holds a row whose link matches the
    stripped form of [link] as a prefix. *)
Lemma row_after_mark (db : store) (title link : string)
    (url src : option string) (now : Z) :
  no_line_feed link ->
  exists r, In r (mark_posted healthy db title link url src now)
            /\ like (coupon_link r) (strip_query link ++ "%") = true.
Proof.
  intros Hlink. rewrite mark_posted_healthy.
  destruct (already db link) eqn:Hal.
  - unfold already, select_link in Hal. rewrite fetched_filter in Hal.
    apply existsb_exists in Hal as (r & Hin & Hr).
    exists r. split; [exact Hin|].
    apply orb_true_iff in Hr as [Hr|Hr].
    + apply String.eqb_eq in Hr. rewrite Hr. apply link_matches_base, Hlink.
    + unfold normalized in Hr. destruct (truthy link) eqn:Hl; [exact Hr|].
      destruct link; [|discriminate]. apply like_anything.
  - destruct (clash db _) eqn:Hcl.
    + unfold clash in Hcl. apply existsb_exists in Hcl as (r & Hin & Hr).
      exists r. split; [exact Hin|].
      apply String.eqb_eq in Hr. rewrite Hr. apply stored_link_matches.
    + exists (new_row db title link url src now). split.
      * apply in_or_app. right. left. reflexivity.
      * apply stored_link_matches.
Qed.

(** C1, as the code has it.  Take a link and a text, each on one line (a
    line feed stops the [.] of the code's pattern), and a healthy store
    holding any table.  The stripped form of the link is the link up to its
    first [?] or [#], and the link with [?] or [#] and the text appended is
    stripped to the same form.  After one call of [mark_posted] with the
    link: when no stored link matched it, the table has gained one row,
    which holds the stripped form (the link as given when the stripped form
    is empty); when one did, the table is as it was; either way a stored
    link matches the stripped form as a prefix, and [is_posted] answers
    [True] for the link with [?] or [#] and the text appended, whatever the
    other arguments of the two calls are. *)
Theorem is_posted_variant (db : store) (link title : string)
    (url src : option string) (now : Z)
    (c : ascii) (q : string) (url' title' : option string) :
  no_line_feed link -> is_query_mark c = true -> no_line_feed q ->
  (exists b q0,
      link = (b ++ q0)%string /\ no_query_mark b /\ appended q0
      /\ strip_query link = b
      /\ strip_query (link ++ String c q) = b)
  /\ (already db link = false ->
      mark_posted healthy db title link url src now
      = (db ++ [mkRow (next_id db) title
                      (if truthy (strip_query link) then strip_query link
                       else link)
                      (or_else_opt (normalized url) url) now src])%list)
  /\ (already db link = true ->
      mark_posted healthy db title link url src now = db)
  /\ (exists r,
         In r (mark_posted healthy db title link url src now)
         /\ like (coupon_link r) (strip_query link ++ "%") = true)
  /\ is_posted healthy
       (mark_posted healthy db title link url src now)
       (link ++ String c q) url' title' = true.
Proof.
  intros Hlink Hc Hq.
  split; [|split; [|split; [|split]]].
  - destruct (split_at_mark link Hlink) as (b & q0 & -> & Hb & H0 & Hl0).
    exists b, q0. split; [reflexivity|]. split; [exact Hb|].
    split; [exact H0|]. split.
    + apply strip_query_appended; assumption.
    + rewrite append_assoc. apply strip_query_appended; [exact Hb|].
      apply appended_more; assumption.
  - intros Hal. rewrite mark_posted_healthy, Hal, (no_clash _ _ _ _ _ _ Hal).
    unfold new_row. rewrite stored_link. reflexivity.
  - intros Hal. rewrite mark_posted_healthy, Hal. reflexivity.
  - apply row_after_mark, Hlink.
  - destruct (split_at_mark link Hlink) as (b & q1 & -> & Hb & H1 & Hl1).
    rewrite append_assoc.
    apply is_posted_same_base.
    + exact Hb.
    + exact H1.
    + apply appended_more; assumption.
    + destruct b; destruct q1; discriminate.
Qed.

Lemma is_posted_variant_witness :
  no_line_feed "https://site/go/abc123"
  /\ is_query_mark "?" = true
  /\ no_line_feed "ref=2"
  /\ is_posted healthy
       (mark_posted healthy [] "Intro to X" "https://site/go/abc123" None None 0)
       "https://site/go/abc123?ref=2" None None = true.
Proof.
  assert (H1 : no_line_feed "https://site/go/abc123") by reflexivity.
  assert (H2 : is_query_mark "?" = true) by reflexivity.
  assert (H3 : no_line_feed "ref=2") by reflexivity.
  refine (conj H1 (conj H2 (conj H3 _))).
  exact (proj2 (proj2 (proj2 (proj2
           (is_posted_variant [] "https://site/go/abc123" "Intro to X" None
              None 0 "?" "ref=2" None None H1 H2 H3))))).
Defined.

(** C1 fails as stated.  A query string that holds a line feed is not
    stripped: the [.] of the pattern stops at the line feed and [$] does not
    match there, so the variant is looked up as it is and is not known
    after the link was recorded.  And a link given as a query string only
    is stored as given, not stripped. *)
Lemma variant_with_line_feed_unknown :
  strip_query ("https://site/go/abc123?x" ++ String newline "y")
  = ("https://site/go/abc123?x" ++ String newline "y")%string
  /\ is_posted healthy
       (mark_posted healthy [] "Intro to X" "https://site/go/abc123" None None 0)
       ("https://site/go/abc123?x" ++ String newline "y") None None = false
  /\ List.map coupon_link (mark_posted healthy [] "Intro to X" "?x=1" None None 0)
     = ["?x=1"].
Proof. split; [|split]; vm_compute; reflexivity. Qed.

(** The same holds between two links that differ in what follows the
    base: recorded with one query string, looked up with another or none. *)
Example other_query_known :
  is_posted healthy
    (mark_posted healthy [] "Intro to X" "https://site/go/abc123?ref=1" None None 0)
    "https://site/go/abc123#top" None None = true
  /\ is_posted healthy
       (mark_posted healthy [] "Intro to X" "https://site/go/abc123?ref=1" None None 0)
       "https://site/go/abc123" None None = true.
Proof. split; vm_compute; reflexivity. Qed.

Lemma mark_posted_try_known (db : store) (title link : string)
    (url src : option string) (now : Z) :
  already db link = true ->
  snd (mark_posted_try healthy db title link url src now) = Returned db.
Proof.
  unfold mark_posted_try, already, sql, healthy, bind. intros ->. reflexivity.
Qed.

(** The WHERE clause of the check, row by row. *)
Lemma already_none (db : store) (link : string) :
  (forall r, In r db ->
     coupon_link r <> link
     /\ like (coupon_link r) (like_pattern (normalized (Some link))) = false) ->
  select_link db link (like_pattern (normalized (Some link))) = []
  /\ already db link = false.
Proof.
  intros Hno.
  assert (Hsel : select_link db link (like_pattern (normalized (Some link))) = []).
  { unfold select_link. induction db as [|r db IH]; [reflexivity|]. simpl.
    destruct (Hno r (or_introl eq_refl)) as [Hne Hlike].
    rewrite Hlike, (proj2 (String.eqb_neq _ _) Hne). simpl.
    apply IH. intros r' Hr'. apply Hno. right. exact Hr'. }
  split; [exact Hsel|]. unfold already. rewrite Hsel. reflexivity.
Qed.

(** C2, as the code has it.  On a healthy store, whatever the table
    holds: the second call of [mark_posted] for a link returns without an
    error and leaves the table as the first call left it, and so does any
    number of calls for that link.  When, before the first call, no stored
    link is the link or matches its stripped form followed by anything, the
    first call adds one row, which holds the stripped form (the link as
    given when the stripped form is empty), and afterwards exactly that row
    is what the check for the link finds.  When a stored link does match,
    no call stores anything. *)
Theorem mark_posted_idempotent (db : store) (link : string)
    (title1 title2 : string) (url1 url2 src1 src2 : option string)
    (now1 now2 : Z)
    (calls : list (string * option string * option string * Z)) :
  snd (mark_posted_try healthy
         (mark_posted healthy db title1 link url1 src1 now1)
         title2 link url2 src2 now2)
  = Returned (mark_posted healthy db title1 link url1 src1 now1)
  /\ mark_posted healthy (mark_posted healthy db title1 link url1 src1 now1)
                 title2 link url2 src2 now2
     = mark_posted healthy db title1 link url1 src1 now1
  /\ mark_posted_times db link ((title1, url1, src1, now1) :: calls)
     = mark_posted healthy db title1 link url1 src1 now1
  /\ ((forall r, In r db ->
         coupon_link r <> link
         /\ like (coupon_link r) (like_pattern (normalized (Some link))) = false) ->
      mark_posted_times db link ((title1, url1, src1, now1) :: calls)
      = (db ++ [new_row db title1 link url1 src1 now1])%list
      /\ coupon_link (new_row db title1 link url1 src1 now1)
         = (if truthy (strip_query link) then strip_query link else link)
      /\ select_link
           (mark_posted_times db link ((title1, url1, src1, now1) :: calls))
           link (like_pattern (normalized (Some link)))
         = [new_row db title1 link url1 src1 now1])
  /\ (already db link = true ->
      mark_posted_times db link ((title1, url1, src1, now1) :: calls) = db).
Proof.
  assert (Htimes : mark_posted_times db link ((title1, url1, src1, now1) :: calls)
                   = mark_posted healthy db title1 link url1 src1 now1).
  { simpl. apply mark_posted_times_known, already_after_mark. }
  split; [|split; [|split; [|split]]].
  - apply mark_posted_try_known, already_after_mark.
  - apply mark_posted_known, already_after_mark.
  - exact Htimes.
  - intros Hno. destruct (already_none db link Hno) as [Hsel Hal].
    rewrite Htimes, (mark_posted_stores db title1 link url1 src1 now1 Hal).
    split; [reflexivity|]. split.
    + unfold new_row. cbn [coupon_link]. apply stored_link.
    + unfold select_link in *. rewrite filter_app, Hsel.
      unfold new_row at 1. cbn [List.filter coupon_link app].
      rewrite stored_link_found. reflexivity.
  - intros Hal. rewrite Htimes. apply mark_posted_known, Hal.
Qed.

(** The theorem at a table that holds another listing: the row of the
    first call is added to it and is the one row found. *)
Lemma mark_posted_idempotent_witness :
  List.map coupon_link
    (mark_posted_times Scenarios.another_listing "https://site/go/abc123?ref=2"
       [("Intro to X", None, None, 1%Z); ("Intro to X", None, None, 2%Z);
        ("Intro to X again", None, None, 3%Z)])
  = ["https://site/go/xyz789"; "https://site/go/abc123"]
  /\ List.map coupon_link
       (select_link
          (mark_posted_times Scenarios.another_listing
             "https://site/go/abc123?ref=2"
             [("Intro to X", None, None, 1%Z); ("Intro to X", None, None, 2%Z);
              ("Intro to X again", None, None, 3%Z)])
          "https://site/go/abc123?ref=2"
          (like_pattern (normalized (Some "https://site/go/abc123?ref=2"))))
     = ["https://site/go/abc123"].
Proof.
  assert (Hno : forall r, In r Scenarios.another_listing ->
            coupon_link r <> "https://site/go/abc123?ref=2"
            /\ like (coupon_link r)
                 (like_pattern (normalized (Some "https://site/go/abc123?ref=2")))
               = false).
  { intros r [<-|[]]. split; [discriminate|reflexivity]. }
  destruct (proj1 (proj2 (proj2 (proj2
              (mark_posted_idempotent Scenarios.another_listing
                 "https://site/go/abc123?ref=2" "Intro to X" "Intro to X"
                 None None None None 1 2
                 [("Intro to X", None, None, 2%Z);
                  ("Intro to X again", None, None, 3%Z)])))) Hno)
    as (Hstore & Hlink & Hfound).
  split.
  - rewrite Hstore. reflexivity.
  - rewrite Hfound. reflexivity.
Defined.

(** C2 fails as stated.  After [.../abc1] and [.../abc12] were recorded,
    two calls for [.../abc] store nothing: the check finds the two longer
    links, so no stored link is [.../abc] and two stored links match it. *)
Lemma shorter_link_never_stored :
  List.map coupon_link
    (mark_posted_times Scenarios.two_longer_links "https://site/go/abc"
       [("Intro to C", None, None, 2%Z); ("Intro to C", None, None, 3%Z)])
  = ["https://site/go/abc1"; "https://site/go/abc12"]
  /\ List.map coupon_link
       (select_link
          (mark_posted_times Scenarios.two_longer_links "https://site/go/abc"
             [("Intro to C", None, None, 2%Z); ("Intro to C", None, None, 3%Z)])
          "https://site/go/abc"
          (like_pattern (normalized (Some "https://site/go/abc"))))
     = ["https://site/go/abc1"; "https://site/go/abc12"]
  /\ List.filter
       (fun r => String.eqb (coupon_link r) "https://site/go/abc")
       (mark_posted_times Scenarios.two_longer_links "https://site/go/abc"
          [("Intro to C", None, None, 2%Z); ("Intro to C", None, None, 3%Z)])
     = [].
Proof. split; [|split]; vm_compute; reflexivity. Qed.

(** *** Titles *)

Lemma is_posted_healthy_title (db : store) (link title : string)
    (url : option string) :
  truthy title = true ->
  10 < String.length (normalize_title title) ->
  existsb
    (fun posted_title =>
       truthy posted_title
       && similar (normalize_title title) (normalize_title posted_title))
    (List.map course_title db) = true ->
  is_posted healthy db link url (Some title) = true.
Proof.
  intros Ht Hlen Hex.
  unfold is_posted, is_posted_try, by_coupon_link, by_course_slug, by_title,
    sql, healthy, bind.
  rewrite Ht, (proj2 (Nat.ltb_lt _ _) Hlen), Hex.
  destruct (truthy link); [destruct (fetched _); [reflexivity|]|];
    (destruct url as [u|];
     [destruct (truthy u);
      [destruct (course_slug _); [destruct (fetched _)|]|]|]);
    reflexivity.
Qed.

Lemma normalize_title_empty : normalize_title EmptyString = EmptyString.
Proof. reflexivity. Qed.

Lemma contains_in_empty (s : string) :
  contains s EmptyString = true -> s = EmptyString.
Proof. destruct s; simpl; [reflexivity|discriminate]. Qed.

(** Two titles in the relation tested by the code are not empty. *)
Lemma similar_truthy (title posted_title : string) :
  10 < String.length (normalize_title title) ->
  similar (normalize_title title) (normalize_title posted_title) = true ->
  truthy posted_title = true.
Proof.
  intros Hlen Hsim. destruct posted_title as [|c t]; [|reflexivity].
  exfalso. rewrite normalize_title_empty in Hsim. unfold similar in Hsim.
  apply orb_true_iff in Hsim as [Hsim|Hsim];
    [apply orb_true_iff in Hsim as [Hsim|Hsim]|].
  - apply String.eqb_eq in Hsim. rewrite Hsim in Hlen. simpl in Hlen. lia.
  - apply andb_true_iff in Hsim as [_ Hsim].
    apply contains_in_empty in Hsim. rewrite Hsim in Hlen. simpl in Hlen. lia.
  - apply andb_true_iff in Hsim as [Hsim _]. simpl in Hsim. discriminate.
Qed.

(** C4, as the code has it.  Take two titles within ASCII and write
    [n1], [n2] for them normalized as the code does: lower-cased, trimmed,
    every character removed that is neither a word character nor white
    space.  When [n2] is longer than 10 characters and [n1 = n2], or [n2]
    occurs in [n1] and [n2] is longer than 20 characters, or [n1] occurs in
    [n2] and [n1] is longer than 20 characters, then after [mark_posted]
    has stored title [t1] (its link was not matched by the table),
    [is_posted] asked about title [t2] answers [True], whatever the link
    and the Udemy URL it is asked about. *)
Theorem is_posted_similar_title (db : store) (t1 link1 : string)
    (url1 src1 : option string) (now : Z)
    (t2 link2 : string) (url2 : option string) :
  is_ascii t1 = true -> is_ascii t2 = true ->
  already db link1 = false ->
  10 < String.length (normalize_title t2) ->
  normalize_title t2 = normalize_title t1
  \/ (20 < String.length (normalize_title t2)
      /\ contains (normalize_title t2) (normalize_title t1) = true)
  \/ (20 < String.length (normalize_title t1)
      /\ contains (normalize_title t1) (normalize_title t2) = true) ->
  is_posted healthy (mark_posted healthy db t1 link1 url1 src1 now)
            link2 url2 (Some t2) = true.
Proof.
  intros _ _ Hal Hlen Hrel.
  assert (Hsim : similar (normalize_title t2) (normalize_title t1) = true).
  { unfold similar. destruct Hrel as [He|[[Hl Hc]|[Hl Hc]]].
    - rewrite He, String.eqb_refl. reflexivity.
    - rewrite (proj2 (Nat.ltb_lt _ _) Hl), Hc. simpl.
      rewrite orb_true_r. reflexivity.
    - rewrite (proj2 (Nat.ltb_lt _ _) Hl), Hc. simpl. apply orb_true_r. }
  assert (Ht2 : truthy t2 = true).
  { destruct t2; [simpl in Hlen; lia|reflexivity]. }
  apply is_posted_healthy_title; [exact Ht2|exact Hlen|].
  rewrite mark_posted_stores by exact Hal.
  rewrite List.map_app, existsb_app. simpl.
  rewrite (similar_truthy t2 t1 Hlen Hsim), Hsim. simpl.
  apply orb_true_r.
Qed.

Lemma is_posted_similar_title_witness :
  is_ascii "Complete Python Bootcamp for Beginners 2024" = true
  /\ is_ascii "Python Bootcamp for Beginners" = true
  /\ already [] "https://site/go/a" = false
  /\ 10 < String.length (normalize_title "Python Bootcamp for Beginners")
  /\ (normalize_title "Python Bootcamp for Beginners"
      = normalize_title "Complete Python Bootcamp for Beginners 2024"
      \/ (20 < String.length (normalize_title "Python Bootcamp for Beginners")
          /\ contains (normalize_title "Python Bootcamp for Beginners")
               (normalize_title "Complete Python Bootcamp for Beginners 2024")
             = true)
      \/ (20 < String.length
                 (normalize_title "Complete Python Bootcamp for Beginners 2024")
          /\ contains
               (normalize_title "Complete Python Bootcamp for Beginners 2024")
               (normalize_title "Python Bootcamp for Beginners") = true))
  /\ is_posted healthy
       (mark_posted healthy [] "Complete Python Bootcamp for Beginners 2024"
                    "https://site/go/a" None None 0)
       "https://site/go/b" None (Some "Python Bootcamp for Beginners") = true.
Proof.
  assert (H1 : already [] "https://site/go/a" = false) by reflexivity.
  assert (H2 : 10 < String.length (normalize_title "Python Bootcamp for Beginners"))
    by (vm_compute; lia).
  assert (H3 : 20 < String.length (normalize_title "Python Bootcamp for Beginners")
               /\ contains (normalize_title "Python Bootcamp for Beginners")
                    (normalize_title "Complete Python Bootcamp for Beginners 2024")
                  = true)
    by (split; [vm_compute; lia|reflexivity]).
  refine (conj eq_refl (conj eq_refl
            (conj H1 (conj H2 (conj (or_intror (or_introl H3)) _))))).
  exact (is_posted_similar_title [] "Complete Python Bootcamp for Beginners 2024"
           "https://site/go/a" None None 0 "Python Bootcamp for Beginners"
           "https://site/go/b" None eq_refl eq_refl H1 H2
           (or_intror (or_introl H3))).
Defined.

(** C4 fails as stated.  [Python Bootcamp] occurs in
    [Complete Python Bootcamp 2024], whose normal form is longer than 20
    characters, yet the shorter title is not known after the longer one
    was recorded: the code asks the contained title to be longer than 20.
    And two titles with one normal form in the words of the specification
    are told apart by a blank, which the code keeps. *)
Lemma similar_title_counterexample :
  (contains (spec_normalize_title "Python Bootcamp")
            (spec_normalize_title "Complete Python Bootcamp 2024") = true
   /\ 20 < String.length (spec_normalize_title "Complete Python Bootcamp 2024")
   /\ is_posted healthy
        (mark_posted healthy [] "Complete Python Bootcamp 2024"
                     "https://site/go/a" None None 0)
        "https://site/go/b" None (Some "Python Bootcamp") = false)
  /\ (spec_normalize_title "Python for DataScience Bootcamp"
      = spec_normalize_title "Python for Data Science Bootcamp"
      /\ 20 < String.length (spec_normalize_title "Python for Data Science Bootcamp")
      /\ is_posted healthy
           (mark_posted healthy [] "Python for Data Science Bootcamp"
                        "https://site/go/a" None None 0)
           "https://site/go/b" None (Some "Python for DataScience Bootcamp")
         = false).
Proof.
  split; (split; [|split]); try (vm_compute; reflexivity); vm_compute; lia.
Qed.

(** *** Storage faults *)

(** Case analysis on a run: on the faults and on the tests of the code. *)
Ltac split_run f :=
  repeat match goal with
         | |- context [if f ?op then _ else _] => destruct (f op) eqn:?; simpl
         | |- context [if ?c then _ else _] => destruct c eqn:?; simpl
         | |- context [match ?x with Some _ => _ | None => _ end] =>
             destruct x eqn:?; simpl
         end.

(** The body of the [try] returns only when none of the calls it made was
    at fault. *)
Lemma returned_clean (f : faults) (db : store) (link : string)
    (url title : option string) (known : bool) :
  snd (is_posted_try f db link url title) = Returned known ->
  Forall (fun op => f op = false) (fst (is_posted_try f db link url title)).
Proof.
  unfold is_posted_try, by_coupon_link, by_course_slug, by_title, sql, bind, ret.
  simpl. split_run f; intros H; try discriminate H;
    repeat constructor; assumption.
Qed.

(** The connection is the first call of every run. *)
Lemma connects_first (f : faults) (db : store) (link : string)
    (url title : option string) :
  In OpConnect (fst (is_posted_try f db link url title)).
Proof.
  unfold is_posted_try, sql, bind. simpl.
  destruct (f OpConnect); simpl; [left; reflexivity|].
  destruct (f OpCursor); simpl; [left; reflexivity|].
  destruct (by_coupon_link f db link) as [ops [[|]|e]]; simpl;
    try (left; reflexivity);
    destruct (by_course_slug f db url) as [ops2 [[|]|e2]]; simpl;
    try (left; reflexivity);
    destruct (by_title f db title) as [ops3 [[|]|e3]]; simpl; left; reflexivity.
Qed.

(** C8.  When a storage operation made by [is_posted] raises, whichever
    it is and whatever the arguments and the table are, [is_posted] answers
    [False]; being a function into the truth values it raises nothing
    itself. *)
Theorem is_posted_fail_open (f : faults) (db : store) (link : string)
    (url title : option string) (op : storage_op) :
  In op (fst (is_posted_try f db link url title)) ->
  f op = true ->
  is_posted f db link url title = false.
Proof.
  intros Hin Hop. unfold is_posted.
  destruct (snd (is_posted_try f db link url title)) as [known|e] eqn:Hrun;
    [|reflexivity].
  pose proof (returned_clean f db link url title known Hrun) as Hclean.
  rewrite Forall_forall in Hclean. specialize (Hclean op Hin). congruence.
Qed.

Lemma is_posted_fail_open_witness :
  let f := fun op => match op with OpFetchLink => true | _ => false end in
  let db := [mkRow 1 "Intro to X" "https://site/go/abc123" None 0 None] in
  In OpFetchLink (fst (is_posted_try f db "https://site/go/abc123" None None))
  /\ f OpFetchLink = true
  /\ is_posted f db "https://site/go/abc123" None None = false.
Proof.
  intros f db.
  assert (Hin : In OpFetchLink
                  (fst (is_posted_try f db "https://site/go/abc123" None None)))
    by (vm_compute; auto).
  assert (Hop : f OpFetchLink = true) by reflexivity.
  exact (conj Hin (conj Hop (is_posted_fail_open f db _ None None OpFetchLink
                               Hin Hop))).
Defined.

(** The same table answers [True] when the storage layer is healthy. *)
Example healthy_answer :
  is_posted healthy [mkRow 1 "Intro to X" "https://site/go/abc123" None 0 None]
            "https://site/go/abc123" None None = true.
Proof. vm_compute. reflexivity. Qed.

(** *** The table as other code sees it *)

(** Whatever the faults, a call of [mark_posted] leaves the table as it was
    or adds its row at the end. *)
Lemma mark_posted_appends (f : faults) (db : store) (title link : string)
    (url src : option string) (now : Z) :
  mark_posted f db title link url src now = db
  \/ mark_posted f db title link url src now
     = (db ++ [new_row db title link url src now])%list.
Proof.
  unfold mark_posted, mark_posted_try, insert, sql, bind, ret.
  simpl. split_run f; auto.
Qed.

(** Asked about a link alone, a healthy [is_posted] is its first lookup. *)
Lemma is_posted_by_link (db : store) (link : string) :
  is_posted healthy db link None None
  = truthy link && fetched (select_link db link (strip_query link ++ "%")).
Proof.
  unfold is_posted, is_posted_try, by_coupon_link, by_course_slug, by_title,
    sql, healthy, bind, ret.
  destruct (truthy link); simpl; [|reflexivity].
  destruct (fetched _); reflexivity.
Qed.

Lemma known_link_app (db added : store) (link : string) :
  is_posted healthy db link None None = true ->
  is_posted healthy (db ++ added) link None None = true.
Proof.
  rewrite !is_posted_by_link. intros H. apply andb_true_iff in H as [H1 H2].
  rewrite H1, (select_link_app db added _ _ H2). reflexivity.
Qed.

(** A link that was recorded is known. *)
Lemma known_after_mark (db : store) (title link : string)
    (url src : option string) (now : Z) :
  truthy link = true ->
  is_posted healthy (mark_posted healthy db title link url src now)
            link None None = true.
Proof.
  intros Hl. rewrite is_posted_by_link, Hl.
  pose proof (already_after_mark db title link url src now) as H.
  unfold already, normalized in H. rewrite Hl in H. exact H.
Qed.

End CourseDatabaseFacts.

(** ** [UdemyScraper.get_udemy_course_info] *)

Module UdemyScraperFacts.
Import Text TextFacts UdemyScraper.
Open Scope Z_scope.
#[local] Opaque get_udemy_course_info.

(** The guard: beyond depth 3 nothing is done. *)
Lemma beyond_bound (w : web) (v : pyval) (d : Z) :
  3 < d -> get_udemy_course_info w v d = (None, [Enter v d]).
Proof.
  intros H. rewrite get_udemy_course_info_equation_1.
  destruct (Z_gt_le_dec d 3) as [Hgt|Hle]; [|lia].
  rewrite get_udemy_course_info_clause_1_equation_1. reflexivity.
Qed.

(** The fixed-point equation below the bound. *)
Lemma within_bound (w : web) (v : pyval) (d : Z) :
  d <= 3 ->
  get_udemy_course_info w v d =
  if negb (py_truthy v) || negb (isinstance_str v)
  then (None, [Enter v d])
  else
    match v with
    | PyStr link =>
        match w link with
        | None => (None, [Enter v d; Request link d])
        | Some r =>
            if contains "/go/" link then
              (scan_redirect r, [Enter v d; Request link d])
            else
              match next_go_link (text r) with
              | Some go_link =>
                  let sub := get_udemy_course_info w (PyStr go_link) (d + 1) in
                  (fst sub, Enter v d :: Request link d :: snd sub)
              | None =>
                  (first_udemy_link (find_all_a_href "udemy.com" (text r)),
                   [Enter v d; Request link d])
              end
        end
    | _ => (None, [Enter v d])
    end.
Proof.
  intros H. rewrite get_udemy_course_info_equation_1.
  destruct (Z_gt_le_dec d 3) as [Hgt|Hle]; [lia|].
  rewrite get_udemy_course_info_clause_1_equation_2. reflexivity.
Qed.

Lemma contains_here (needle hay : string) :
  String.prefix needle hay = true -> contains needle hay = true.
Proof. intros H. destruct hay; simpl in *; rewrite H; reflexivity. Qed.

Lemma contains_later (needle hay : string) (c : ascii) :
  contains needle hay = true -> contains needle (String c hay) = true.
Proof.
  intros H. change (contains needle (String c hay))
    with (String.prefix needle (String c hay) || contains needle hay)%bool.
  rewrite H. apply orb_true_r.
Qed.

Lemma contains_append (needle p hay : string) :
  contains needle hay = true -> contains needle (p ++ hay) = true.
Proof.
  intros H. induction p as [|c p IH]; [exact H|].
  apply contains_later, IH.
Qed.

(** The link the resolver follows from a landing page is a [/go/] link. *)
Lemma next_go_link_go (soup : page) (go_link : string) :
  next_go_link soup = Some go_link ->
  contains "/go/" go_link = true /\ truthy go_link = true.
Proof.
  unfold next_go_link.
  destruct (find_all_a_href "/go/" soup) as [|b rest] eqn:Hf; [discriminate|].
  assert (Hin : In b (find_all_a_href "/go/" soup)) by (rewrite Hf; left; reflexivity).
  apply filter_In in Hin as [_ Hb].
  apply andb_true_iff in Hb as [_ Hb].
  destruct (href b) as [h|]; [|discriminate]. simpl.
  destruct (truthy h) eqn:Hh; [|discriminate].
  destruct (startswith h "/"); intros [= <-].
  - split; [exact (contains_append "/go/" "https://www.couponami.com" h Hb)
           |reflexivity].
  - split; assumption.
Qed.

(** A [/go/] link is resolved without a further invocation. *)
Lemma go_call (w : web) (link : string) (d : Z) :
  contains "/go/" link = true -> truthy link = true -> d <= 3 ->
  get_udemy_course_info w (PyStr link) d =
  match w link with
  | None => (None, [Enter (PyStr link) d; Request link d])
  | Some r => (scan_redirect r, [Enter (PyStr link) d; Request link d])
  end.
Proof.
  intros Hgo Hne Hd. rewrite within_bound by exact Hd. simpl.
  rewrite Hne, Hgo. simpl. destruct (w link); reflexivity.
Qed.

(** The record of a call: at most two invocations, the second one level
    deeper, and a request only at depth 3 or less. *)
Lemma trace_shape (w : web) (v : pyval) (d : Z) :
  let tr := snd (get_udemy_course_info w v d) in
  tr = [Enter v d]
  \/ (d <= 3 /\ exists l, tr = [Enter v d; Request l d])
  \/ (d <= 3 /\ exists l v', tr = [Enter v d; Request l d; Enter v' (d + 1)])
  \/ (d + 1 <= 3 /\ exists l v' l',
        tr = [Enter v d; Request l d; Enter v' (d + 1); Request l' (d + 1)]).
Proof.
  destruct (Z_gt_le_dec d 3) as [Hgt|Hle].
  - left. rewrite beyond_bound by lia. reflexivity.
  - cbv zeta. rewrite within_bound by exact Hle.
    destruct (negb (py_truthy v) || negb (isinstance_str v)); [left; reflexivity|].
    destruct v as [| | |link]; try (left; reflexivity).
    destruct (w link) as [r|]; [|right; left; split; [exact Hle|eexists; reflexivity]].
    destruct (contains "/go/" link);
      [right; left; split; [exact Hle|eexists; reflexivity]|].
    destruct (next_go_link (text r)) as [g|] eqn:Hg;
      [|right; left; split; [exact Hle|eexists; reflexivity]].
    apply next_go_link_go in Hg as [Hgo Hne]. cbv zeta. simpl snd.
    destruct (Z_gt_le_dec (d + 1) 3) as [Hgt'|Hle'].
    + rewrite beyond_bound by lia. right; right; left.
      split; [exact Hle|]. do 2 eexists. reflexivity.
    + rewrite (go_call w g (d + 1) Hgo Hne Hle').
      right; right; right. split; [exact Hle'|].
      destruct (w g); do 3 eexists; reflexivity.
Qed.

(** C5.  The resolver is a total function.  Called at depth 0 no
    invocation goes deeper than 3; at any depth a request is sent only
    from depth 3 or less and the call is over after at most two
    invocations, whatever the pages link to; beyond depth 3 the answer is
    the empty dict, without a request. *)
Theorem resolver_bounded (w : web) (link : pyval) :
  Forall (fun e => event_depth e <= 3) (snd (get_udemy_course_info w link 0))
  /\ (forall d,
        Forall (fun e => is_request e = true -> event_depth e <= 3)
               (snd (get_udemy_course_info w link d)))
  /\ (forall d, (List.length (snd (get_udemy_course_info w link d)) <= 4)%nat)
  /\ (forall d, 3 < d -> get_udemy_course_info w link d = (None, [Enter link d])).
Proof.
  split; [|split; [|split]].
  - destruct (trace_shape w link 0) as [H|[[_ [l H]]|[[_ [l [v' H]]]|[_ [l [v' [l' H]]]]]]];
      cbv zeta in H; rewrite H; repeat constructor; simpl; lia.
  - intros d.
    destruct (trace_shape w link d) as [H|[[? [l H]]|[[? [l [v' H]]]|[? [l [v' [l' H]]]]]]];
      cbv zeta in H; rewrite H; repeat constructor; simpl; intros; try lia;
      discriminate.
  - intros d.
    destruct (trace_shape w link d) as [H|[[? [l H]]|[[? [l [v' H]]]|[? [l [v' [l' H]]]]]]];
      cbv zeta in H; rewrite H; simpl; lia.
  - intros d Hd. apply beyond_bound, Hd.
Qed.

(** C10.  The empty string and every value that is not a [str] are
    answered with the empty dict at every depth, without a request. *)
Theorem resolver_rejects_non_links (w : web) (v : pyval) (d : Z) :
  v = PyStr EmptyString \/ isinstance_str v = false ->
  get_udemy_course_info w v d = (None, [Enter v d]).
Proof.
  intros Hv. destruct (Z_gt_le_dec d 3) as [Hgt|Hle].
  - apply beyond_bound. lia.
  - rewrite within_bound by exact Hle.
    destruct Hv as [->|Hv]; [reflexivity|].
    rewrite Hv. simpl. rewrite orb_true_r. reflexivity.
Qed.

Lemma resolver_rejects_non_links_witness :
  (PyNone = PyStr EmptyString \/ isinstance_str PyNone = false)
  /\ get_udemy_course_info (fun _ => None) PyNone 0 = (None, [Enter PyNone 0]).
Proof.
  assert (H : PyNone = PyStr EmptyString \/ isinstance_str PyNone = false)
    by (right; reflexivity).
  exact (conj H (resolver_rejects_non_links (fun _ => None) PyNone 0 H)).
Defined.

(** On a chain where every page links onward the resolver stops after
    the second request, with the empty dict. *)
Example endless_chain_stops :
  get_udemy_course_info Scenarios.endless_chain
    (PyStr "https://www.couponami.com/python/a") 0
  = (None,
     [Enter (PyStr "https://www.couponami.com/python/a") 0;
      Request "https://www.couponami.com/python/a" 0;
      Enter (PyStr "https://www.couponami.com/go/https://www.couponami.com/python/a") 1;
      Request "https://www.couponami.com/go/https://www.couponami.com/python/a" 1]).
Proof. vm_compute. reflexivity. Qed.

(** The first Udemy link of the page is the answer of the [/go/] branch,
    with or without a coupon code. *)
Lemma first_link_wins (link : element) (rest : list element) :
  contains "udemy.com" (attr (href link)) = true ->
  first_udemy_link_go (link :: rest) = Some (absolute (attr (href link))).
Proof.
  intros H. simpl. rewrite H.
  destruct (contains "couponCode=" (attr (href link))); reflexivity.
Qed.

(** C6 does not hold of the code.  The landing page holds a Udemy link
    with a coupon code, after a plain one: the resolver answers the plain
    one. *)
Theorem coupon_link_not_preferred :
  get_udemy_course_info Scenarios.plain_before_coupon
    (PyStr "https://www.couponami.com/go/abc123") 0
  = (Some "https://www.udemy.com/course/intro-to-x/",
     [Enter (PyStr "https://www.couponami.com/go/abc123") 0;
      Request "https://www.couponami.com/go/abc123" 0])
  /\ contains "couponCode=" "https://www.udemy.com/course/intro-to-x/" = false.
Proof. split; vm_compute; reflexivity. Qed.

End UdemyScraperFacts.

(** ** [TelegramChannelPoster.format_course_message] *)

Module TelegramChannelPosterFacts.
Import Text TextFacts TelegramChannelPoster.

Lemma inside_after (l s rest : string) :
  (exists before after_, rest = (before ++ l ++ after_)%string) ->
  exists before after_, (s ++ rest)%string = (before ++ l ++ after_)%string.
Proof.
  intros (b & a & ->). exists (s ++ b)%string, a.
  rewrite append_assoc. reflexivity.
Qed.

(** The link goes into the message as it is, whatever it holds. *)
Lemma link_verbatim (c : course) :
  exists before after_,
    format_course_message c = (before ++ shown_link c ++ after_)%string.
Proof.
  unfold format_course_message, shown_link.
  do 12 apply inside_after.
  destruct (truthy (get_or (udemy_url c) EmptyString));
    exists "🔗 <b>Get Course:</b> "; eexists;
    rewrite !append_assoc; reflexivity.
Qed.

(** C9 does not hold of the code.  The link of the course holds [&] and
    [<]: the message holds the link as scraped, not its escaped form. *)
Theorem link_not_escaped :
  contains "https://site/go/abc123?a=1&b=<b>"
           (format_course_message Scenarios.markup_in_link) = true
  /\ escape "https://site/go/abc123?a=1&b=<b>"
     = "https://site/go/abc123?a=1&amp;b=&lt;b&gt;"
  /\ contains "https://site/go/abc123?a=1&amp;b=&lt;b&gt;"
              (format_course_message Scenarios.markup_in_link) = false.
Proof. split; [|split]; vm_compute; reflexivity. Qed.

End TelegramChannelPosterFacts.

(** ** [UdemyCoursesBot.process_courses] *)

Module UdemyCoursesBotFacts.
Import UdemyCoursesBot.

Section Journal.
Variable P : nat -> course -> Prop.

Lemma orderly_weaken (lo lo' : nat) (tr : list event) :
  lo' <= lo -> orderly P lo tr -> orderly P lo' tr.
Proof.
  intros Hle H. revert lo' Hle.
  induction H; intros lo' Hle; constructor; auto; lia.
Qed.

Lemma orderly_quiet (lo : nat) (evs tr : list event) :
  Forall quiet evs -> orderly P lo tr -> orderly P lo (evs ++ tr).
Proof.
  induction 1 as [|e evs He _ IH]; intros Htr; simpl; [exact Htr|].
  destruct e; simpl in He; try contradiction; constructor; auto.
Qed.

(** Every position published or recorded is at least the bound. *)
Lemma orderly_bound (lo : nat) (tr : list event) :
  orderly P lo tr ->
  (forall i c ok, In (EvPublish i c ok) tr -> lo <= i /\ P i c)
  /\ (forall i t l, In (EvRecord i t l) tr -> lo <= i).
Proof.
  induction 1 as [lo|lo tr _ [IH1 IH2]|lo i k tr _ [IH1 IH2]
                  |lo i tr _ [IH1 IH2]|lo i c tr Hle Hp _ [IH1 IH2]
                  |lo i c tr Hle Hp _ [IH1 IH2]];
    (split; [intros j c' ok Hin|intros j t l Hin]); simpl in Hin.
  - contradiction.
  - contradiction.
  - destruct Hin as [Hin|Hin]; [discriminate|eauto].
  - destruct Hin as [Hin|Hin]; [discriminate|eauto].
  - destruct Hin as [Hin|Hin]; [discriminate|eauto].
  - destruct Hin as [Hin|Hin]; [discriminate|eauto].
  - destruct Hin as [Hin|Hin]; [discriminate|eauto].
  - destruct Hin as [Hin|Hin]; [discriminate|eauto].
  - destruct Hin as [Hin|[Hin|Hin]]; [|discriminate|].
    + injection Hin as <- <- <-. auto.
    + destruct (IH1 _ _ _ Hin). split; [lia|assumption].
  - destruct Hin as [Hin|[Hin|Hin]]; [discriminate| |].
    + injection Hin as <- _ _. exact Hle.
    + specialize (IH2 _ _ _ Hin). lia.
  - destruct Hin as [Hin|Hin].
    + injection Hin as <- <- <-. auto.
    + destruct (IH1 _ _ _ Hin). split; [lia|assumption].
  - destruct Hin as [Hin|Hin]; [discriminate|].
    specialize (IH2 _ _ _ Hin). lia.
Qed.

(** A record comes right after the successful publication of the same
    course, with the title and the link of that course. *)
Lemma orderly_record (lo : nat) (tr : list event) :
  orderly P lo tr ->
  forall pre post i t l,
    tr = (pre ++ EvRecord i t l :: post)%list ->
    exists pre' c,
      pre = (pre' ++ [EvPublish i c true])%list
      /\ t = get_or (title c) "Unknown"
      /\ l = get_or (coupon_link c) EmptyString.
Proof.
  induction 1 as [lo|lo tr _ IH|lo i k tr _ IH|lo i tr _ IH
                  |lo i c tr Hle Hp _ IH|lo i c tr Hle Hp _ IH];
    intros pre post j t l Heq.
  - destruct pre; discriminate.
  - destruct pre as [|e pre]; [discriminate|].
    injection Heq as <- Heq. destruct (IH _ _ _ _ _ Heq) as (pre' & c & -> & Ht & Hl).
    exists (EvScrape :: pre'), c. auto.
  - destruct pre as [|e pre]; [discriminate|].
    injection Heq as <- Heq. destruct (IH _ _ _ _ _ Heq) as (pre' & c & -> & Ht & Hl).
    exists (EvCheck i k :: pre'), c. auto.
  - destruct pre as [|e pre]; [discriminate|].
    injection Heq as <- Heq. destruct (IH _ _ _ _ _ Heq) as (pre' & c & -> & Ht & Hl).
    exists (EvDetails i :: pre'), c. auto.
  - destruct pre as [|e pre]; [discriminate|].
    injection Heq as <- Heq.
    destruct pre as [|e' pre].
    + injection Heq as <- <- <- _. exists [], c. auto.
    + injection Heq as <- Heq.
      destruct (IH _ _ _ _ _ Heq) as (pre' & c' & -> & Ht & Hl).
      exists (EvPublish i c true
                :: EvRecord i (get_or (title c) "Unknown")
                              (get_or (coupon_link c) EmptyString) :: pre'), c'.
      auto.
  - destruct pre as [|e pre]; [discriminate|].
    injection Heq as <- Heq. destruct (IH _ _ _ _ _ Heq) as (pre' & c' & -> & Ht & Hl).
    exists (EvPublish i c false :: pre'), c'. auto.
Qed.

(** A publication that failed is followed by no record of its course. *)
Lemma orderly_failed_unrecorded (lo : nat) (tr : list event) :
  orderly P lo tr ->
  forall i c, In (EvPublish i c false) tr ->
  forall t l, ~ In (EvRecord i t l) tr.
Proof.
  induction 1 as [lo|lo tr _ IH|lo i k tr _ IH|lo i tr _ IH
                  |lo i c tr Hle Hp Htr IH|lo i c tr Hle Hp Htr IH];
    intros j c' Hpub t l Hrec; simpl in Hpub, Hrec.
  - contradiction.
  - destruct Hpub as [?|Hpub]; [discriminate|].
    destruct Hrec as [?|Hrec]; [discriminate|]. exact (IH _ _ Hpub _ _ Hrec).
  - destruct Hpub as [?|Hpub]; [discriminate|].
    destruct Hrec as [?|Hrec]; [discriminate|]. exact (IH _ _ Hpub _ _ Hrec).
  - destruct Hpub as [?|Hpub]; [discriminate|].
    destruct Hrec as [?|Hrec]; [discriminate|]. exact (IH _ _ Hpub _ _ Hrec).
  - destruct Hpub as [?|[?|Hpub]]; [discriminate|discriminate|].
    destruct (orderly_bound _ _ Htr) as [Hb _].
    destruct (Hb _ _ _ Hpub) as [Hj _].
    destruct Hrec as [?|[Hrec|Hrec]]; [discriminate| |].
    + injection Hrec as <- _ _. lia.
    + exact (IH _ _ Hpub _ _ Hrec).
  - destruct (orderly_bound _ _ Htr) as [Hb1 Hb2].
    destruct Hrec as [?|Hrec]; [discriminate|].
    destruct Hpub as [Hpub|Hpub].
    + injection Hpub as <- _. specialize (Hb2 _ _ _ Hrec). lia.
    + exact (IH _ _ Hpub _ _ Hrec).
Qed.

(** The positions published grow. *)
Lemma orderly_published (lo : nat) (tr : list event) :
  orderly P lo tr ->
  Forall (le lo) (published tr) /\ StronglySorted lt (published tr).
Proof.
  induction 1 as [lo|lo tr _ IH|lo i k tr _ IH|lo i tr _ IH
                  |lo i c tr Hle Hp Htr [IH1 IH2]|lo i c tr Hle Hp Htr [IH1 IH2]];
    simpl; auto.
  - split; constructor.
  - split; constructor; auto;
      eapply Forall_impl; try exact IH1; simpl; intros; lia.
  - split; constructor; auto;
      eapply Forall_impl; try exact IH1; simpl; intros; lia.
Qed.

End Journal.

(** *** The journal of a pass *)

Lemma drive_await (answers : nat -> bool) (n : nat) (a : await)
    (k : bool -> world -> segment) (w : world) :
  snd (drive answers n (Await a k) w) = trace_of answers (S n) (k (answers n) w).
Proof.
  simpl. unfold trace_of.
  destruct (k (answers n) w) as [[w1 evs] c'].
  destruct (drive answers (S n) c' w1). reflexivity.
Qed.

Lemma trace_of_after (answers : nat -> bool) (n : nat) (evs : list event)
    (s : segment) :
  trace_of answers n (after evs s) = (evs ++ trace_of answers n s)%list.
Proof.
  destruct s as [[w evs'] c]. simpl. rewrite app_assoc. reflexivity.
Qed.

Lemma run_trace (answers : nat -> bool) (s : segment) :
  snd (run answers s) = trace_of answers 0 s.
Proof.
  destruct s as [[w evs] c]. simpl. destruct (drive answers 0 c w). reflexivity.
Qed.

Lemma with_details_spec (e : env) (courses : list course) (i : nat)
    (c : course) (link : string) :
  scraped_at courses i c ->
  Forall quiet (snd (with_details e i c link))
  /\ scraped_at courses i (fst (with_details e i c link))
  /\ title (fst (with_details e i c link)) = title c
  /\ coupon_link (fst (with_details e i c link)) = coupon_link c.
Proof.
  intros Hc. unfold with_details.
  destruct (negb (opt_truthy (language c)) && negb (Text.contains "/go/" link));
    simpl; repeat split; auto.
  repeat constructor.
Qed.

(** The second loop keeps the order of [new_courses]. *)
Lemma post_all_orderly (e : env) (answers : nat -> bool)
    (courses : list course) (l : list (nat * course)) :
  forall lo n w,
    increasing_from lo l ->
    Forall (fun ic => scraped_at courses (fst ic) (snd ic)) l ->
    orderly (scraped_at courses) lo (trace_of answers n (post_all e l w)).
Proof.
  induction l as [|[i c] rest IH]; intros lo n w Hinc Hall.
  - simpl. constructor.
  - destruct Hinc as [Hle Hinc]. inversion Hall as [|? ? Hc Hrest]; subst.
    simpl in Hc. simpl post_all.
    destruct (with_details_spec e courses i c
                (get_or (coupon_link c) EmptyString) Hc)
      as (Hq & Hc' & Ht & Hl).
    destruct (with_details e i c (get_or (coupon_link c) EmptyString))
      as [c' evs]. simpl in Hq, Hc', Ht, Hl.
    unfold trace_of at 1. rewrite drive_await.
    apply orderly_quiet; [exact Hq|].
    destruct (answers n).
    + unfold trace_of at 1. rewrite drive_await. simpl app.
      rewrite <- Ht, <- Hl.
      apply orderly_posted; [exact Hle|exact Hc'|].
      apply IH; assumption.
    + rewrite trace_of_after. simpl app.
      apply orderly_failed; [exact Hle|exact Hc'|].
      apply IH; assumption.
Qed.

Lemma increasing_weaken (l : list (nat * course)) (lo lo' : nat) :
  lo' <= lo -> increasing_from lo l -> increasing_from lo' l.
Proof.
  destruct l as [|[i c] l]; simpl; [auto|]. intros Hle [Hi Hl]. split; [lia|auto].
Qed.

(** The first loop emits checks only and keeps positions and order. *)
Lemma filter_new_spec (e : env) (table : CourseDatabase.store)
    (courses : list course) (l : list (nat * course)) :
  forall lo,
    increasing_from lo l ->
    Forall (fun ic => scraped_at courses (fst ic) (snd ic)) l ->
    increasing_from lo (fst (filter_new e table l))
    /\ Forall (fun ic => scraped_at courses (fst ic) (snd ic))
              (fst (filter_new e table l))
    /\ Forall quiet (snd (filter_new e table l)).
Proof.
  induction l as [|[i c] rest IH]; intros lo Hinc Hall.
  - simpl. repeat split; constructor.
  - destruct Hinc as [Hle Hinc]. inversion Hall as [|? ? Hc Hrest]; subst.
    simpl in Hc. simpl filter_new.
    destruct (IH (S i) Hinc Hrest) as (H1 & H2 & H3).
    destruct (filter_new e table rest) as [new_courses evs].
    simpl in H1, H2, H3.
    destruct (CourseDatabase.is_posted _ _ _ _ _); simpl.
    + repeat split; [|exact H2|constructor; [exact I|exact H3]].
      apply (increasing_weaken _ (S i)); [lia|exact H1].
    + repeat split; [exact Hle|exact H1| |constructor; [exact I|exact H3]].
      constructor; [|exact H2]. simpl.
      destruct Hc as (c0 & Hn & Ht & Hl).
      destruct (if Text.truthy _ then _ else _); exists c0; auto.
Qed.

Lemma indexed_spec (courses : list course) :
  forall k prefix,
    List.length prefix = k ->
    increasing_from k (combine (seq k (List.length courses)) courses)
    /\ Forall (fun ic => scraped_at (prefix ++ courses) (fst ic) (snd ic))
              (combine (seq k (List.length courses)) courses).
Proof.
  induction courses as [|c courses IH]; intros k prefix Hk; simpl.
  - split; constructor.
  - destruct (IH (S k) (prefix ++ [c])%list) as [H1 H2].
    { rewrite length_app. simpl. lia. }
    rewrite <- app_assoc in H2. simpl in H2.
    repeat split; [lia|exact H1|].
    constructor; [|exact H2]. simpl. exists c. repeat split.
    rewrite nth_error_app2 by lia. rewrite <- Hk, Nat.sub_diag. reflexivity.
Qed.

Lemma process_courses_orderly (e : env) (answers : nat -> bool) (w : world) :
  orderly (scraped_at (scrape_all e)) 0
          (trace_of answers 0 (process_courses e w)).
Proof.
  unfold process_courses.
  destruct (scrape_all e) as [|c0 cs] eqn:Hs; [repeat constructor|].
  rewrite <- Hs.
  destruct (indexed_spec (scrape_all e) 0 [] eq_refl) as [Hinc Hall].
  simpl app in Hall. fold (indexed (scrape_all e)) in Hinc, Hall.
  destruct (filter_new_spec e (db w) (scrape_all e) _ 0 Hinc Hall)
    as (H1 & H2 & H3).
  destruct (filter_new e (db w) (indexed (scrape_all e))) as [new_courses evs].
  simpl in H1, H2, H3.
  destruct new_courses as [|ic new_courses].
  - simpl. constructor. rewrite app_nil_r.
    rewrite <- (app_nil_r evs). apply orderly_quiet; [exact H3|constructor].
  - rewrite trace_of_after.
    change (orderly (scraped_at (scrape_all e)) 0
              (EvScrape
                 :: evs ++ trace_of answers 0 (post_all e (ic :: new_courses) w))).
    constructor. apply orderly_quiet; [exact H3|].
    apply post_all_orderly; assumption.
Qed.

(** C7.  In the journal of a pass, whatever the publications answer:
    every record stands right after the successful publication of the
    course at the same position and carries its title and link; a course
    whose publication failed is not recorded; the positions published
    grow, and the course published at a position is the course scraped at
    that position. *)
Theorem record_follows_publish (e : env) (answers : nat -> bool) (w : world) :
  let tr := snd (run_pass e answers w) in
  (forall pre post i t l,
      tr = (pre ++ EvRecord i t l :: post)%list ->
      exists pre' c,
        pre = (pre' ++ [EvPublish i c true])%list
        /\ t = get_or (title c) "Unknown"
        /\ l = get_or (coupon_link c) EmptyString)
  /\ (forall i c, In (EvPublish i c false) tr ->
                  forall t l, ~ In (EvRecord i t l) tr)
  /\ StronglySorted lt (published tr)
  /\ (forall i c ok, In (EvPublish i c ok) tr -> scraped_at (scrape_all e) i c).
Proof.
  cbv zeta. unfold run_pass. rewrite run_trace.
  pose proof (process_courses_orderly e answers w) as H.
  split; [|split; [|split]].
  - exact (orderly_record _ _ _ H).
  - exact (orderly_failed_unrecorded _ _ _ H).
  - exact (proj2 (orderly_published _ _ _ H)).
  - intros i c ok Hin.
    exact (proj2 (proj1 (orderly_bound _ _ _ H) i c ok Hin)).
Qed.

(** The journal of a pass that finds one new course and publishes it. *)
Example one_course_journal :
  published (snd (run_pass Scenarios.one_course (fun _ => true) (mkWorld [] 0)))
  = [0]
  /\ List.map CourseDatabase.coupon_link
       (db (fst (run_pass Scenarios.one_course (fun _ => true) (mkWorld [] 0))))
     = ["https://site/go/abc123"]
  /\ db (fst (run_pass Scenarios.one_course (fun _ => false) (mkWorld [] 0)))
     = [].
Proof. split; [|split]; vm_compute; reflexivity. Qed.

End UdemyCoursesBotFacts.

(** ** Passes sharing the event loop *)

Module ExclusionFacts.
Import UdemyCoursesBot.

Lemma settle_fresh (s : system) (n id : nat) (en : entry)
    (others : list pass) (seg : segment) :
  id < n -> Forall (fun p => pass_id p < n) others ->
  fresh (settle s n id en others seg).
Proof.
  intros Hid Hall. destruct seg as [[w evs] c]. unfold fresh, settle. simpl.
  destruct c; [exact Hall|].
  apply Forall_app. split; [exact Hall|]. constructor; [exact Hid|constructor].
Qed.

Lemma step_fresh (e : env) (s s' : system) : step e s s' -> fresh s -> fresh s'.
Proof.
  intros Hstep Hs. destruct Hstep as [en s _|answer id s s' Hres].
  - apply settle_fresh; [lia|].
    eapply Forall_impl; [|exact Hs]. simpl. intros; lia.
  - unfold resume in Hres.
    destruct (find (has_id id) (passes s)) as [p|] eqn:Hf; [|discriminate].
    destruct (pass_coro p) as [|a k]; [discriminate|].
    injection Hres as <-.
    apply find_some in Hf as [Hin Hid]. apply Nat.eqb_eq in Hid.
    pose proof (proj1 (Forall_forall _ _) Hs p Hin) as Hlt. simpl in Hlt.
    apply settle_fresh; [lia|].
    apply Forall_forall. intros q Hq. apply filter_In in Hq as [Hq _].
    exact (proj1 (Forall_forall _ _) Hs q Hq).
Qed.

Lemma reachable_fresh (e : env) (w0 : world) (s : system) :
  reachable e (boot w0) s -> fresh s.
Proof.
  induction 1 as [|s s' _ IH Hstep]; [constructor|].
  exact (step_fresh e s s' Hstep IH).
Qed.

Lemma find_new (l : list pass) (p : pass) (n : nat) :
  Forall (fun q => pass_id q < n) l -> pass_id p = n ->
  find (has_id n) (l ++ [p]) = Some p.
Proof.
  intros Hl Hp. induction Hl as [|q l Hq _ IH]; simpl.
  - unfold has_id. rewrite Hp, Nat.eqb_refl. reflexivity.
  - unfold has_id at 1. destruct (Nat.eqb_spec (pass_id q) n); [lia|exact IH].
Qed.

Lemma filter_old (l : list pass) (p : pass) (n : nat) :
  Forall (fun q => pass_id q < n) l -> pass_id p = n ->
  List.filter (fun q => negb (has_id n q)) (l ++ [p]) = l.
Proof.
  intros Hl Hp. induction Hl as [|q l Hq _ IH]; simpl.
  - unfold has_id. rewrite Hp, Nat.eqb_refl. reflexivity.
  - unfold has_id at 1. destruct (Nat.eqb_spec (pass_id q) n); [lia|].
    simpl. rewrite IH. reflexivity.
Qed.

(** The events a pass adds do not make another pass active. *)
Lemma scrape_of_other (id id' : nat) (evs : list event) :
  id' <> id -> existsb (is_scrape id') (List.map (pair id) evs) = false.
Proof.
  intros Hne. induction evs as [|ev evs IH]; simpl; [reflexivity|].
  unfold is_scrape at 1. simpl.
  destruct (Nat.eqb_spec id id'); [congruence|]. exact IH.
Qed.

Lemma active_old (journal_ : list (nat * event)) (id : nat) (evs : list event)
    (l : list pass) :
  Forall (fun q => pass_id q < id) l ->
  List.filter
    (fun p => existsb (is_scrape (pass_id p)) (journal_ ++ List.map (pair id) evs))
    l
  = List.filter (fun p => existsb (is_scrape (pass_id p)) journal_) l.
Proof.
  intros Hl. apply filter_ext_in. intros p Hp.
  pose proof (proj1 (Forall_forall _ _) Hl p Hp) as Hlt. simpl in Hlt.
  rewrite existsb_app, scrape_of_other by lia. apply orb_false_r.
Qed.

(** The loop of [/test] waits for its first publication. *)
Lemma post_selected_waits (e : env) (ic : nat * course)
    (rest : list (nat * course)) (w : world) :
  exists evs a k, post_selected e (ic :: rest) w = (w, evs, Await a k).
Proof.
  destruct ic as [i c]. simpl.
  destruct (prepared e i c) as [c' evs]. do 3 eexists. reflexivity.
Qed.

Lemma num_courses_positive (arg : option Z) : 1 <= num_courses arg.
Proof. destruct arg as [n|]; simpl; lia. Qed.

Lemma after_delete_scrapes (e : env) (arg : option Z) (w1 : world) :
  exists w evs c,
    after_delete e arg w1 = (w, EvScrape :: evs, c)
    /\ (scrape_all e <> [] -> exists a k, c = Await a k).
Proof.
  unfold after_delete.
  destruct (scrape_all e) as [|c0 cs] eqn:Hs.
  - do 3 eexists. split; [reflexivity|]. congruence.
  - pose proof (num_courses_positive arg) as Hn.
    destruct (firstn (num_courses arg) (indexed (c0 :: cs))) as [|ic rest] eqn:Hf.
    { destruct (num_courses arg) as [|n]; [lia|discriminate]. }
    destruct (post_selected_waits e ic rest w1) as (evs & a & k & Hp).
    rewrite Hp. do 3 eexists. split; [reflexivity|].
    intros _. do 2 eexists. reflexivity.
Qed.

(** *** A pass run to its end while the others wait *)

(** Induction on a coroutine: what holds of every continuation's next
    state holds of the coroutine. *)
Lemma coro_induction (P : coro -> Prop) :
  P Done ->
  (forall a k,
      (forall b w, P (let '(_, _, c') := k b w in c')) -> P (Await a k)) ->
  forall c, P c.
Proof.
  intros HD HA. fix IH 1. intros [|a k]; [exact HD|].
  apply HA. intros b w. destruct (k b w) as [[w' evs] c']. apply IH.
Qed.

Lemma drive_await_world (answers : nat -> bool) (n : nat) (a : await)
    (k : bool -> world -> segment) (w : world) :
  fst (drive answers n (Await a k) w) = world_of answers (S n) (k (answers n) w).
Proof.
  simpl. unfold world_of.
  destruct (k (answers n) w) as [[w1 evs] c'].
  destruct (drive answers (S n) c' w1). reflexivity.
Qed.

Lemma run_world (answers : nat -> bool) (s : segment) :
  fst (run answers s) = world_of answers 0 s.
Proof.
  destruct s as [[w evs] c]. simpl. destruct (drive answers 0 c w). reflexivity.
Qed.

(** A waiting pass can be resumed, answer after answer, to its end; the
    passes that wait beside it are not touched, and the table and the
    journal get what the pass does on its own. *)
Lemma runs_alone (e : env) (s0 : system) (answers : nat -> bool)
    (id : nat) (en : entry) (others : list pass) (st : nat) :
  Forall (fun q => pass_id q < id) others ->
  forall c n w jr,
    reachable e s0
      (mkSystem w
         match c with
         | Done => others
         | Await _ _ => (others ++ [mkPass id en c])%list
         end
         st jr) ->
    reachable e s0
      (mkSystem (fst (drive answers n c w)) others st
         (jr ++ List.map (pair id) (snd (drive answers n c w)))%list).
Proof.
  intros Hothers c. induction c as [|a k IH] using coro_induction;
    intros n w jr Hreach.
  - simpl. rewrite app_nil_r. exact Hreach.
  - assert (Hres : resume (answers n) id
                     (mkSystem w (others ++ [mkPass id en (Await a k)]) st jr)
                   = Some (settle
                             (mkSystem w (others ++ [mkPass id en (Await a k)]) st jr)
                             st id en others (k (answers n) w))).
    { unfold resume. cbn [passes shared started].
      rewrite (find_new others (mkPass id en (Await a k)) id Hothers eq_refl).
      cbn [pass_coro pass_entry].
      rewrite (filter_old others (mkPass id en (Await a k)) id Hothers eq_refl).
      reflexivity. }
    pose proof (reach_step e s0 _ _ Hreach (step_resume e _ _ _ _ Hres)) as Hnext.
    specialize (IH (answers n) w (S n)).
    simpl drive.
    destruct (k (answers n) w) as [[w1 evs] c'].
    unfold settle in Hnext. cbn [journal] in Hnext.
    specialize (IH w1 _ Hnext).
    destruct (drive answers (S n) c' w1) as [w2 evs'].
    cbn [fst snd] in *.
    rewrite List.map_app, app_assoc. exact IH.
Qed.

(** *** The loop of [/test] *)

Lemma published_quiet (evs tr : list event) :
  Forall quiet evs -> published (evs ++ tr) = published tr.
Proof.
  induction 1 as [|ev evs Hq _ IH]; [reflexivity|].
  destruct ev; simpl in *; try contradiction; exact IH.
Qed.

Lemma prepared_spec (e : env) (i : nat) (c : course) :
  Forall quiet (snd (prepared e i c))
  /\ coupon_link (fst (prepared e i c)) = coupon_link c
  /\ title (fst (prepared e i c)) = title c.
Proof.
  unfold prepared, with_details.
  destruct (negb (opt_truthy (language c)) && negb (Text.contains "/go/" _));
    cbn [fst snd];
    (destruct (Text.truthy _ && negb (opt_truthy _));
     [destruct (resolved e _)|]); cbn [fst snd coupon_link title set_udemy_url add_details];
    repeat split; repeat constructor.
Qed.

(** One turn of the loop: the course is prepared and published; when the
    publication succeeded and the table does not know the link, the course
    is recorded; then the loop goes on with the rest. *)
Lemma post_selected_turn (e : env) (answers : nat -> bool) (i : nat)
    (c : course) (rest : list (nat * course)) (n : nat) (w : world) :
  exists m w1 mid,
    trace_of answers n (post_selected e ((i, c) :: rest) w)
    = (snd (prepared e i c)
       ++ EvPublish i (fst (prepared e i c)) (answers n)
       :: mid ++ trace_of answers m (post_selected e rest w1))%list
    /\ world_of answers n (post_selected e ((i, c) :: rest) w)
       = world_of answers m (post_selected e rest w1)
    /\ ((answers n = true
         /\ Text.truthy (get_or (coupon_link c) EmptyString) = true
         /\ CourseDatabase.is_posted (db_faults e) (db w)
              (get_or (coupon_link c) EmptyString) None None = false
         /\ mid = [EvRecord i (get_or (title c) "Unknown")
                            (get_or (coupon_link c) EmptyString)]
         /\ w1 = record e w (fst (prepared e i c)) (get_or (title c) "Unknown")
                        (get_or (coupon_link c) EmptyString))
        \/ (mid = [] /\ w1 = w
            /\ (answers n = true ->
                Text.truthy (get_or (coupon_link c) EmptyString) = true ->
                CourseDatabase.is_posted (db_faults e) (db w)
                  (get_or (coupon_link c) EmptyString) None None = true))).
Proof.
  cbn [post_selected].
  destruct (prepared e i c) as [c' evs]. cbn [fst snd].
  unfold trace_of at 1, world_of at 1.
  rewrite UdemyCoursesBotFacts.drive_await, drive_await_world.
  assert (Hrest : forall evs' w1,
            exists m,
              trace_of answers (S n)
                match rest with
                | [] => (w1, evs', Done)
                | _ :: _ =>
                    (w1, evs',
                     Await (AwaitSleep 2) (fun _ w2 => post_selected e rest w2))
                end
              = (evs' ++ trace_of answers m (post_selected e rest w1))%list
              /\ world_of answers (S n)
                   match rest with
                   | [] => (w1, evs', Done)
                   | _ :: _ =>
                       (w1, evs',
                        Await (AwaitSleep 2) (fun _ w2 => post_selected e rest w2))
                   end
                 = world_of answers m (post_selected e rest w1)).
  { intros evs' w1. destruct rest as [|ic rest].
    - exists (S n). split; reflexivity.
    - exists (S (S n)). split.
      + unfold trace_of at 1. rewrite UdemyCoursesBotFacts.drive_await.
        reflexivity.
      + unfold world_of at 1. rewrite drive_await_world. reflexivity. }
  destruct (answers n) eqn:Hans;
    [destruct (Text.truthy (get_or (coupon_link c) EmptyString)) eqn:Hlink;
     [destruct (CourseDatabase.is_posted (db_faults e) (db w)
                  (get_or (coupon_link c) EmptyString) None None) eqn:Hknown|]|];
    cbn [andb negb].
  - destruct (Hrest [EvPublish i c' true] w) as (m & Htr & Hw).
    exists m, w, []. rewrite Htr, Hw.
    split; [reflexivity|]. split; [reflexivity|]. right. auto.
  - destruct (Hrest [EvPublish i c' true;
                     EvRecord i (get_or (title c) "Unknown")
                              (get_or (coupon_link c) EmptyString)]
                    (record e w c' (get_or (title c) "Unknown")
                            (get_or (coupon_link c) EmptyString)))
      as (m & Htr & Hw).
    exists m. do 2 eexists. rewrite Htr, Hw.
    split; [reflexivity|]. split; [reflexivity|].
    left. repeat split; reflexivity.
  - destruct (Hrest [EvPublish i c' true] w) as (m & Htr & Hw).
    exists m, w, []. rewrite Htr, Hw.
    split; [reflexivity|]. split; [reflexivity|].
    right. repeat split. intros _ H. discriminate H.
  - destruct (Hrest [EvPublish i c' false] w) as (m & Htr & Hw).
    exists m, w, []. rewrite Htr, Hw.
    split; [reflexivity|]. split; [reflexivity|].
    right. repeat split. intros H. discriminate H.
Qed.

Lemma firstn_seq_min (k a m : nat) : firstn k (seq a m) = seq a (Nat.min k m).
Proof.
  revert a m. induction k as [|k IH]; intros a m; [reflexivity|].
  destruct m as [|m]; [reflexivity|]. simpl. rewrite IH. reflexivity.
Qed.

Lemma indexed_positions (courses : list course) :
  List.map fst (indexed courses) = seq 0 (List.length courses).
Proof.
  unfold indexed. generalize 0 as k.
  induction courses as [|c courses IH]; intros k; [reflexivity|].
  simpl. rewrite IH. reflexivity.
Qed.

(** The courses [/test] selects: the first ones of the page, as many as
    asked for, known or not. *)
Lemma selected_positions (arg : option Z) (courses : list course) :
  List.map fst (firstn (num_courses arg) (indexed courses))
  = seq 0 (Nat.min (num_courses arg) (List.length courses)).
Proof. rewrite <- firstn_map, indexed_positions. apply firstn_seq_min. Qed.

Lemma selected_scraped (arg : option Z) (courses : list course) :
  Forall (fun ic => scraped_at courses (fst ic) (snd ic))
         (firstn (num_courses arg) (indexed courses)).
Proof.
  destruct (UdemyCoursesBotFacts.indexed_spec courses 0 [] eq_refl) as [_ Hall].
  simpl app in Hall. fold (indexed courses) in Hall.
  apply Forall_forall. intros ic Hin.
  apply (proj1 (Forall_forall _ _) Hall). revert Hin.
  generalize (indexed courses) as l. generalize (num_courses arg) as k.
  induction k as [|k IH]; intros l Hin; [contradiction|].
  destruct l as [|x l]; [contradiction|].
  destruct Hin as [->|Hin]; [left; reflexivity|right; apply (IH l Hin)].
Qed.

(** The loop publishes every selected course once, in order; it records
    only what it has published; the table keeps its rows; and on a healthy
    store every course published under a link is known in the end. *)
Lemma post_selected_spec (e : env) (answers : nat -> bool)
    (courses : list course) (l : list (nat * course)) :
  Forall (fun ic => scraped_at courses (fst ic) (snd ic)) l ->
  forall n w,
    published (trace_of answers n (post_selected e l w)) = List.map fst l
    /\ (forall i c ok,
           In (EvPublish i c ok) (trace_of answers n (post_selected e l w)) ->
           scraped_at courses i c)
    /\ (forall i t k,
           In (EvRecord i t k) (trace_of answers n (post_selected e l w)) ->
           exists c,
             In (EvPublish i c true) (trace_of answers n (post_selected e l w))
             /\ t = get_or (title c) "Unknown"
             /\ k = get_or (coupon_link c) EmptyString)
    /\ (exists added,
           db (world_of answers n (post_selected e l w)) = (db w ++ added)%list)
    /\ (db_faults e = CourseDatabase.healthy ->
        forall i c,
          In (EvPublish i c true) (trace_of answers n (post_selected e l w)) ->
          Text.truthy (get_or (coupon_link c) EmptyString) = true ->
          CourseDatabase.is_posted CourseDatabase.healthy
            (db (world_of answers n (post_selected e l w)))
            (get_or (coupon_link c) EmptyString) None None = true).
Proof.
  induction 1 as [|[i c] rest Hc _ IH]; intros n w.
  - simpl. split; [reflexivity|]. split; [intros ? ? ? []|].
    split; [intros ? ? ? []|]. split; [exists []; symmetry; apply app_nil_r|].
    intros _ ? ? [].
  - destruct (post_selected_turn e answers i c rest n w)
      as (m & w1 & mid & Htr & Hw & Hcase).
    destruct (prepared_spec e i c) as (Hquiet & Hlink & Htitle).
    destruct (IH m w1) as (IHp & IHs & IHr & [added IHa] & IHk).
    rewrite Htr, Hw.
    assert (Hmid : mid = [] \/ exists t k, mid = [EvRecord i t k])
      by (destruct Hcase as [(_ & _ & _ & -> & _)|(-> & _)]; eauto).
    assert (Hin : forall ev,
              In ev (snd (prepared e i c)
                     ++ EvPublish i (fst (prepared e i c)) (answers n)
                     :: mid ++ trace_of answers m (post_selected e rest w1)) ->
              (quiet ev /\ In ev (snd (prepared e i c)))
              \/ ev = EvPublish i (fst (prepared e i c)) (answers n)
              \/ In ev mid
              \/ In ev (trace_of answers m (post_selected e rest w1))).
    { intros ev H. apply in_app_or in H as [H|[H|H]].
      - left. split; [|exact H].
        exact (proj1 (Forall_forall _ _) Hquiet ev H).
      - right. left. symmetry. exact H.
      - apply in_app_or in H as [H|H]; auto. }
    assert (Hgrow : exists added1, db w1 = (db w ++ added1)%list).
    { destruct Hcase as [(_ & _ & _ & _ & ->)|(_ & -> & _)].
      - unfold record. cbn [db].
        destruct (CourseDatabaseFacts.mark_posted_appends (db_faults e) (db w)
                    (get_or (title c) "Unknown")
                    (get_or (coupon_link c) EmptyString)
                    (udemy_url (fst (prepared e i c)))
                    (source (fst (prepared e i c))) (clock w)) as [-> | ->].
        + exists []. symmetry. apply app_nil_r.
        + eexists. reflexivity.
      - exists []. symmetry. apply app_nil_r. }
    split; [|split; [|split; [|split]]].
    + rewrite published_quiet by exact Hquiet. cbn [published List.map fst].
      f_equal. rewrite <- IHp.
      destruct Hmid as [->|(t & k & ->)]; reflexivity.
    + intros j cj ok H. apply Hin in H as [[Hq _]|[H|[H|H]]].
      * contradiction.
      * injection H as -> -> _.
        destruct Hc as (c0 & Hn & Ht & Hl). exists c0. cbn [fst snd] in *.
        rewrite Htitle, Hlink. auto.
      * destruct Hmid as [->|(t & k & ->)]; [contradiction|].
        destruct H as [H|[]]. discriminate H.
      * exact (IHs _ _ _ H).
    + intros j t k H. apply Hin in H as [[Hq _]|[H|[H|H]]].
      * contradiction.
      * discriminate H.
      * destruct Hcase as [(Hans & _ & _ & -> & _)|(-> & _)]; [|contradiction].
        destruct H as [H|[]]. injection H as <- <- <-.
        exists (fst (prepared e i c)). rewrite Htitle, Hlink, Hans.
        split; [|auto]. apply in_or_app. right. left. reflexivity.
      * destruct (IHr _ _ _ H) as (cj & Hpub & Ht & Hk).
        exists cj. split; [|auto].
        apply in_or_app. right. right. apply in_or_app. right. exact Hpub.
    + destruct Hgrow as [added1 Hg]. exists (added1 ++ added)%list.
      rewrite IHa, Hg, app_assoc. reflexivity.
    + intros Hf j cj H Htruthy. apply Hin in H as [[Hq _]|[H|[H|H]]].
      * contradiction.
      * injection H as -> -> Hans. rewrite Hlink in *.
        rewrite IHa. apply CourseDatabaseFacts.known_link_app.
        destruct Hcase as [(_ & _ & _ & _ & ->)|(_ & -> & Hknown)].
        -- unfold record. cbn [db]. rewrite Hf.
           apply CourseDatabaseFacts.known_after_mark, Htruthy.
        -- rewrite <- Hf. apply Hknown; [symmetry; exact Hans|exact Htruthy].
      * destruct Hmid as [->|(t & k & ->)]; [contradiction|].
        destruct H as [H|[]]. discriminate H.
      * exact (IHk Hf _ _ H Htruthy).
Qed.

(** Once the command message is gone the handler scrapes and enters its
    loop with the first courses of the page. *)
Lemma after_delete_run (e : env) (arg : option Z) (answers : nat -> bool)
    (n : nat) (w : world) :
  trace_of answers n (after_delete e arg w)
  = EvScrape
    :: trace_of answers n
         (post_selected e (firstn (num_courses arg) (indexed (scrape_all e))) w)
  /\ world_of answers n (after_delete e arg w)
     = world_of answers n
         (post_selected e (firstn (num_courses arg) (indexed (scrape_all e))) w).
Proof.
  unfold after_delete.
  destruct (scrape_all e) as [|c0 cs].
  - rewrite firstn_nil. split; reflexivity.
  - destruct (firstn (num_courses arg) (indexed (c0 :: cs))) as [|ic l].
    + split; reflexivity.
    + rewrite UdemyCoursesBotFacts.trace_of_after.
      split; [reflexivity|].
      destruct (post_selected e (ic :: l) w) as [[w' evs] c']. reflexivity.
Qed.

Lemma handle_test_command_run (e : env) (arg : option Z)
    (answers : nat -> bool) (w : world) :
  snd (run answers (handle_test_command e arg w))
  = EvScrape
    :: trace_of answers 1
         (post_selected e (firstn (num_courses arg) (indexed (scrape_all e))) w)
  /\ fst (run answers (handle_test_command e arg w))
     = world_of answers 1
         (post_selected e (firstn (num_courses arg) (indexed (scrape_all e))) w).
Proof.
  rewrite UdemyCoursesBotFacts.run_trace, run_world.
  unfold handle_test_command, trace_of, world_of.
  rewrite UdemyCoursesBotFacts.drive_await, drive_await_world.
  apply after_delete_run.
Qed.

(** C3, as the code has it.  The code keeps no flag of a running pass
    and turns no trigger away.  Take any state the system can reach in
    which no command is being handled, whatever passes wait there.  A
    [/test] command is then served.  Once its handler is resumed after the
    deletion of the command message it has scraped, every pass that was
    waiting goes on waiting, and when the page yields a course one more
    pass is between fetching and recording.  Resumed to its end while the
    others wait, it leaves them waiting and gives the table and the journal
    what it does on its own: it publishes the first courses of the page, as
    many as asked for, in the order of the page and whether they are known
    or not; it records only courses it has published with success; it keeps
    the rows of the table; and, the store being healthy, every course it
    has published with success under a link is known to the table in the
    end. *)
Theorem on_demand_is_served (e : env) (w0 : world) (s : system)
    (arg : option Z) (answers : nat -> bool) :
  reachable e (boot w0) s ->
  existsb is_on_demand (passes s) = false ->
  let out := run answers (handle_test_command e arg (shared s)) in
  (exists s2,
      reachable e (boot w0) s2
      /\ resume (answers 0) (started s) (invoke e (OnDemand arg) s) = Some s2
      /\ In (started s, EvScrape) (journal s2)
      /\ (forall p, In p (passes s) -> In p (passes s2))
      /\ (scrape_all e <> [] ->
          List.length (active s2) = S (List.length (active s))))
  /\ (exists s3,
         reachable e (boot w0) s3
         /\ passes s3 = passes s
         /\ shared s3 = fst out
         /\ journal s3
            = (journal s ++ List.map (pair (started s)) (snd out))%list)
  /\ In EvScrape (snd out)
  /\ published (snd out)
     = seq 0 (Nat.min (num_courses arg) (List.length (scrape_all e)))
  /\ (forall i c ok,
         In (EvPublish i c ok) (snd out) -> scraped_at (scrape_all e) i c)
  /\ (forall i t k,
         In (EvRecord i t k) (snd out) ->
         exists c,
           In (EvPublish i c true) (snd out)
           /\ t = get_or (title c) "Unknown"
           /\ k = get_or (coupon_link c) EmptyString)
  /\ (exists added, db (fst out) = (db (shared s) ++ added)%list)
  /\ (db_faults e = CourseDatabase.healthy ->
      forall i c,
        In (EvPublish i c true) (snd out) ->
        Text.truthy (get_or (coupon_link c) EmptyString) = true ->
        CourseDatabase.is_posted CourseDatabase.healthy (db (fst out))
          (get_or (coupon_link c) EmptyString) None None = true).
Proof.
  intros Hreach Hfree out.
  pose proof (reachable_fresh e w0 s Hreach) as Hfresh.
  set (pnew := mkPass (started s) (OnDemand arg)
                 (Await AwaitDelete (fun _ w1 => after_delete e arg w1))).
  assert (Hinv : invoke e (OnDemand arg) s
                 = mkSystem (shared s) (passes s ++ [pnew]) (S (started s))
                            (journal s ++ [])) by reflexivity.
  assert (Hstart : reachable e (boot w0) (invoke e (OnDemand arg) s)).
  { apply (reach_step e _ s); [exact Hreach|].
    apply step_invoke. unfold allowed. rewrite Hfree. reflexivity. }
  destruct (handle_test_command_run e arg answers (shared s)) as [Htr Hw].
  fold out in Htr, Hw.
  destruct (post_selected_spec e answers (scrape_all e)
              (firstn (num_courses arg) (indexed (scrape_all e)))
              (selected_scraped arg (scrape_all e)) 1 (shared s))
    as (Hpub & Hscr & Hrec & Hadd & Hknown).
  rewrite <- Hw in Hadd, Hknown.
  split; [|split; [|split; [|split; [|split; [|split; [|split]]]]]].
  - assert (Hres : resume (answers 0) (started s) (invoke e (OnDemand arg) s)
                   = Some (settle (invoke e (OnDemand arg) s) (S (started s))
                             (started s) (OnDemand arg) (passes s)
                             (after_delete e arg (shared s)))).
    { rewrite Hinv. unfold resume. cbn [passes shared started journal].
      rewrite (find_new (passes s) pnew (started s) Hfresh eq_refl).
      cbn [pass_coro pass_entry pnew].
      rewrite (filter_old (passes s) pnew (started s) Hfresh eq_refl).
      reflexivity. }
    eexists. split; [|split; [exact Hres|]].
    { apply (reach_step e _ _ _ Hstart). exact (step_resume e _ _ _ _ Hres). }
    destruct (after_delete_scrapes e arg (shared s)) as (w & evs & c & Heq & Hc).
    rewrite Heq, Hinv. unfold settle. cbn [passes shared started journal].
    rewrite app_nil_r.
    split; [|split].
    + apply in_or_app. right. left. reflexivity.
    + intros p Hp. destruct c; [exact Hp|]. apply in_or_app. left. exact Hp.
    + intros Hne. destruct (Hc Hne) as (a & k & ->).
      unfold active. cbn [passes journal].
      rewrite filter_app, length_app, (active_old _ _ _ _ Hfresh).
      cbn [List.filter pass_id]. rewrite existsb_app.
      cbn [List.map existsb].
      replace (is_scrape (started s) (started s, EvScrape)) with true
        by (unfold is_scrape; simpl; rewrite Nat.eqb_refl; reflexivity).
      cbn [orb]. rewrite orb_true_r. cbn [List.length]. lia.
  - rewrite Hinv in Hstart.
    pose proof (runs_alone e (boot w0) answers (started s) (OnDemand arg)
                  (passes s) (S (started s)) Hfresh
                  (Await AwaitDelete (fun _ w1 => after_delete e arg w1))
                  0 (shared s) (journal s ++ []) Hstart) as Hend.
    eexists. split; [exact Hend|].
    cbn [passes shared journal]. rewrite app_nil_r.
    unfold out, run, handle_test_command.
    destruct (drive answers 0 _ (shared s)) as [w' evs'].
    repeat split.
  - rewrite Htr. left. reflexivity.
  - rewrite Htr. cbn [published]. rewrite Hpub. apply selected_positions.
  - intros i c ok Hin. rewrite Htr in Hin.
    destruct Hin as [Hin|Hin]; [discriminate Hin|]. exact (Hscr _ _ _ Hin).
  - intros i t k Hin. rewrite Htr in Hin.
    destruct Hin as [Hin|Hin]; [discriminate Hin|].
    destruct (Hrec _ _ _ Hin) as (c & Hp & Ht & Hk).
    exists c. rewrite Htr. split; [right; exact Hp|auto].
  - exact Hadd.
  - intros Hf i c Hin Hl. rewrite Htr in Hin.
    destruct Hin as [Hin|Hin]; [discriminate Hin|].
    exact (Hknown Hf _ _ Hin Hl).
Qed.

Lemma on_demand_is_served_witness :
  reachable Scenarios.one_course (boot (mkWorld [] 0)) Scenarios.scheduled_waits
  /\ existsb is_on_demand (passes Scenarios.scheduled_waits) = false
  /\ List.map pass_id (passes Scenarios.scheduled_waits) = [0]
  /\ published
       (snd (run (fun _ => true)
               (handle_test_command Scenarios.one_course None
                  (shared Scenarios.scheduled_waits))))
     = [0]
  /\ List.map CourseDatabase.coupon_link
       (db (fst (run (fun _ => true)
                   (handle_test_command Scenarios.one_course None
                      (shared Scenarios.scheduled_waits)))))
     = ["https://site/go/abc123"].
Proof.
  assert (Hr : reachable Scenarios.one_course (boot (mkWorld [] 0))
                 Scenarios.scheduled_waits).
  { eapply reach_step; [apply reach_here|].
    apply (step_invoke _ Scheduled). reflexivity. }
  assert (Hfree : existsb is_on_demand (passes Scenarios.scheduled_waits) = false)
    by reflexivity.
  pose proof (on_demand_is_served Scenarios.one_course (mkWorld [] 0)
                Scenarios.scheduled_waits None (fun _ => true) Hr Hfree) as H.
  cbv zeta in H.
  destruct H as (_ & _ & _ & Hpub & _).
  split; [exact Hr|]. split; [exact Hfree|]. split; [reflexivity|].
  split; [exact Hpub|]. vm_compute. reflexivity.
Defined.

(** C3 fails as stated: with one course on the page, the scheduled pass
    and a [/test] pass are both between fetching and recording. *)
Lemma passes_overlap :
  ~ (forall s,
        reachable Scenarios.one_course (boot (mkWorld [] 0)) s ->
        List.length (active s) <= 1).
Proof.
  intros H. specialize (H Scenarios.two_passes).
  assert (Hlen : List.length (active Scenarios.two_passes) = 2)
    by (vm_compute; reflexivity).
  rewrite Hlen in H.
  assert (Hr : reachable Scenarios.one_course (boot (mkWorld [] 0))
                 Scenarios.two_passes).
  { eapply reach_step; [eapply reach_step; [eapply reach_step;
                                              [apply reach_here|]|]|].
    - apply (step_invoke _ Scheduled). reflexivity.
    - apply (step_invoke _ (OnDemand None)). reflexivity.
    - apply (step_resume _ true 1). reflexivity. }
  specialize (H Hr). lia.
Qed.

(** Resumed with a publication that succeeded, the [/test] pass records its
    course and ends, while the scheduled pass (number 0) still waits for
    the answer to its own publication of the same course; resumed with one
    that failed, it records nothing. *)
Example test_pass_records :
  option_map
    (fun s => (List.map pass_id (passes s),
               published (List.map snd (journal s)),
               List.map CourseDatabase.coupon_link (db (shared s))))
    (resume true 1 Scenarios.two_passes)
  = Some ([0], [0], ["https://site/go/abc123"])
  /\ option_map
       (fun s => (List.map pass_id (passes s),
                  published (List.map snd (journal s)),
                  List.map CourseDatabase.coupon_link (db (shared s))))
       (resume false 1 Scenarios.two_passes)
     = Some ([0], [0], []).
Proof. split; vm_compute; reflexivity. Qed.

(** While a [/test] command is being handled, a second one is not
    started; the scheduled pass is. *)
Example one_command_at_a_time :
  allowed Scenarios.two_passes (OnDemand None) = false
  /\ allowed (invoke Scenarios.one_course (OnDemand None)
                (boot (mkWorld [] 0))) Scheduled = true.
Proof. split; reflexivity. Qed.

End ExclusionFacts.

(** ** More on [CourseDatabase] *)

Module CourseDatabaseMore.
Import Text TextFacts CourseDatabase CourseDatabaseFacts Lookup.
#[local] Arguments normalized : simpl never.
#[local] Arguments new_row : simpl never.



(** *** The table only grows *)










(** *** The destination as a key *)









(** *** Links that extend the link looked up *)



(** *** Writing under faults *)




(** *** What is stored *)



(** *** The keys of the table *)




End CourseDatabaseMore.

(** ** [CourseDatabase.get_recent_courses] *)

Module RecentCoursesFacts.
Import CourseDatabase RecentCourses.
Open Scope Z_scope.











End RecentCoursesFacts.

(** ** More on [UdemyScraper.get_udemy_course_info] *)

Module UdemyScraperMore.
Import Text TextFacts UdemyScraper UdemyScraperFacts.
Open Scope Z_scope.
#[local] Opaque get_udemy_course_info.














End UdemyScraperMore.

(** ** More on [TelegramChannelPoster.format_course_message] *)

Module MarkupFacts.
Import Text TextFacts TelegramChannelPoster Markup.






End MarkupFacts.

(** ** What a scheduled pass publishes *)

Module PassFacts.
Import UdemyCoursesBot UdemyCoursesBotFacts ExclusionFacts Dedup.











End PassFacts.
